(** * Verification of the text and markup analysers of mcp-seo

    Shallow embedding of the TypeScript analysers [keywordDensity]
    (tools/keyword-density.ts), [readability] (tools/readability.ts),
    [headingStructure] (tools/heading-structure.ts), [metaTags] and
    [sitemapCheck] (tools/meta-tags.ts) and [robotsTxt]
    (tools/robots-txt.ts) together with the extraction helpers of
    utils/html.ts that they use; the network fetches are taken as given
    (their status and body are parameters).

    Modelling conventions.
    - A JavaScript string is a Rocq [string]; each character stands for one
      UTF-16 code unit, restricted to the range 0..255 (Latin-1).  JS [\s]
      and [String.prototype.trim] whitespace in that range are the code
      points 9..13, 32 and 160.
    - A JavaScript number is a [num]: a finite value, NaN, +Infinity or
      -Infinity.  Finite values are exact rationals, so the rounding error of
      IEEE doubles is not modelled; the special values and the
      IEEE rules that produce them (division by zero, NaN propagation
      through [Math.max]/[Math.min]) are.
    - A [Map<string, number>] is an association list in insertion order;
      [set] on an existing key updates it in place, as a JS Map does.
    - The value handed to [JSON.stringify] is modelled as a record; the
      serialisation itself is a deterministic function of that value. *)

From Stdlib Require Import String Ascii List Bool Arith Lia ZArith QArith Qround.
From Stdlib Require Import Numbers.DecimalString Lqa.
Import ListNotations.
Open Scope string_scope.
Open Scope nat_scope.

(* ------------------------------------------------------------------ *)
(** ** JavaScript strings *)

Module JSString.

(** JS [\s] (and the characters removed by [trim]) within 0..255. *)
Definition is_space (c : ascii) : bool :=
  let n := nat_of_ascii c in
  ((9 <=? n) && (n <=? 13)) || (n =? 32) || (n =? 160).

(** [toLowerCase] on one Latin-1 code unit. *)
Definition to_lower_char (c : ascii) : ascii :=
  let n := nat_of_ascii c in
  if ((65 <=? n) && (n <=? 90)) || ((192 <=? n) && (n <=? 222) && negb (n =? 215))
  then ascii_of_nat (n + 32) else c.

Fixpoint map_chars (f : ascii -> ascii) (s : string) : string :=
  match s with
  | EmptyString => EmptyString
  | String c s' => String (f c) (map_chars f s')
  end.

Definition toLowerCase (s : string) : string := map_chars to_lower_char s.

(** [s.replace(/[^class]/g, " ")] for a character class [keep]. *)
Definition replace_not (keep : ascii -> bool) (s : string) : string :=
  map_chars (fun c => if keep c then c else " "%char) s.

(** Prepend a character to the first piece of a split. *)
Definition cons_head (c : ascii) (ps : list string) : list string :=
  match ps with
  | [] => [String c EmptyString]
  | w :: ws => String c w :: ws
  end.

(** [s.split(/[p]+/)]: split on maximal runs of separator characters.
    [prev] records that the previous character was a separator, so that a
    run yields one cut. *)
Fixpoint split_runs_aux (p : ascii -> bool) (prev : bool) (s : string) : list string :=
  match s with
  | EmptyString => [EmptyString]
  | String c s' =>
      if p c then
        if prev then split_runs_aux p true s'
        else EmptyString :: split_runs_aux p true s'
      else cons_head c (split_runs_aux p false s')
  end.

Definition split_runs (p : ascii -> bool) (s : string) : list string :=
  split_runs_aux p false s.

(** [s.split(/\s+/)]. *)
Definition split_ws (s : string) : list string := split_runs is_space s.

(** [s.split(sep)] for a one-character separator string [sep]. *)
Fixpoint split_char (sep : ascii) (s : string) : list string :=
  match s with
  | EmptyString => [EmptyString]
  | String c s' =>
      if Ascii.eqb c sep then EmptyString :: split_char sep s'
      else cons_head c (split_char sep s')
  end.

Fixpoint trim_start (s : string) : string :=
  match s with
  | EmptyString => EmptyString
  | String c s' => if is_space c then trim_start s' else s
  end.

Fixpoint rev_str (s : string) : string :=
  match s with
  | EmptyString => EmptyString
  | String c s' => rev_str s' ++ String c EmptyString
  end.

(** [s.trim()]. *)
Definition trim (s : string) : string := rev_str (trim_start (rev_str (trim_start s))).

(** [s.startsWith(t)]. *)
Fixpoint starts_with (t s : string) : bool :=
  match t, s with
  | EmptyString, _ => true
  | String a t', String b s' => Ascii.eqb a b && starts_with t' s'
  | String _ _, EmptyString => false
  end.

Fixpoint drop (n : nat) (s : string) : string :=
  match n, s with
  | 0, _ => s
  | S n', String _ s' => drop n' s'
  | S _, EmptyString => EmptyString
  end.

(** Search for [t] in [s], the current position being [k]. *)
Fixpoint index_from (t : string) (s : string) (k : nat) : option nat :=
  if starts_with t s then Some k
  else match s with
       | EmptyString => None
       | String _ s' => index_from t s' (S k)
       end.

(** [s.indexOf(t, from)]: the start position is clamped to [length s]. *)
Definition indexOf (s t : string) (from : nat) : option nat :=
  let st := Nat.min from (String.length s) in
  index_from t (drop st s) st.

(** [s.slice(0, n)] for [n >= 0]. *)
Definition slice0 (n : nat) (s : string) : string := substring 0 n s.

(** [s.includes(t)]. *)
Definition includes (s t : string) : bool :=
  match indexOf s t 0 with Some _ => true | None => false end.

(** [" ".repeat(n)] and friends. *)
Fixpoint repeat_str (s : string) (n : nat) : string :=
  match n with 0 => EmptyString | S n' => s ++ repeat_str s n' end.

(** Decimal rendering of an integer ([String(z)] for an integral number). *)
Definition Z_to_string (z : Z) : string := NilEmpty.string_of_int (Z.to_int z).

Definition nat_to_string (n : nat) : string := Z_to_string (Z.of_nat n).

End JSString.

Import JSString.

(* ------------------------------------------------------------------ *)
(** ** JavaScript numbers *)

Module JSNum.

Inductive num : Type := Fin (q : Q) | NaN | PInf | NInf.

Definition of_nat (n : nat) : num := Fin (inject_Z (Z.of_nat n)).

Definition neg (x : num) : num :=
  match x with Fin q => Fin (- q) | NaN => NaN | PInf => NInf | NInf => PInf end.

Definition add (x y : num) : num :=
  match x, y with
  | Fin a, Fin b => Fin (a + b)
  | NaN, _ | _, NaN => NaN
  | PInf, NInf | NInf, PInf => NaN
  | PInf, _ | _, PInf => PInf
  | NInf, _ | _, NInf => NInf
  end.

Definition sub (x y : num) : num := add x (neg y).

(** Sign of a finite value: -1, 0 or 1. *)
Definition qsign (q : Q) : Z :=
  if Qeq_bool q 0 then 0%Z else if Qle_bool 0 q then 1%Z else (-1)%Z.

Definition inf_of_sign (s : Z) : num :=
  match s with Z0 => NaN | Zpos _ => PInf | Zneg _ => NInf end.

Definition sign (x : num) : Z :=
  match x with Fin q => qsign q | NaN => 0%Z | PInf => 1%Z | NInf => (-1)%Z end.

Definition mul (x y : num) : num :=
  match x, y with
  | Fin a, Fin b => Fin (a * b)
  | NaN, _ | _, NaN => NaN
  | _, _ => inf_of_sign (sign x * sign y)%Z
  end.

(** Division: a finite value over zero is an infinity, or NaN for [0/0];
    zero is taken as +0 (every divisor of this program is a count). *)
Definition div (x y : num) : num :=
  match x, y with
  | Fin a, Fin b => if Qeq_bool b 0 then inf_of_sign (qsign a) else Fin (a / b)
  | NaN, _ | _, NaN => NaN
  | Fin _, _ => Fin 0
  | _, Fin b => inf_of_sign (sign x * qsign b)%Z
  | _, _ => NaN
  end.

(** [Math.round]: the integer closest to the value, ties towards +Infinity. *)
Definition round (x : num) : num :=
  match x with Fin q => Fin (inject_Z (Qfloor (q + (1 # 2))%Q)) | _ => x end.

(** Strict order on non-NaN values; every comparison with NaN is false. *)
Definition lt (x y : num) : bool :=
  match x, y with
  | Fin a, Fin b => negb (Qle_bool b a)
  | NaN, _ | _, NaN => false
  | NInf, NInf | PInf, _ => false
  | NInf, _ => true
  | Fin _, PInf => true
  | Fin _, NInf => false
  end.

Definition le (x y : num) : bool :=
  match x, y with
  | NaN, _ | _, NaN => false
  | _, _ => negb (lt y x)
  end.

Definition is_nan (x : num) : bool := match x with NaN => true | _ => false end.

(** [Math.max(x, y)] and [Math.min(x, y)]. *)
Definition max (x y : num) : num :=
  if is_nan x || is_nan y then NaN else if lt x y then y else x.

Definition min (x y : num) : num :=
  if is_nan x || is_nan y then NaN else if lt y x then y else x.

Definition pad2 (s : string) : string :=
  if String.length s =? 1 then "0" ++ s else s.

(** [x.toFixed(2)] for a non-negative finite value below 10^21: the integer
    [n] closest to [x * 100], the larger one on a tie. *)
Definition fixed2 (q : Q) : string :=
  let n := Qfloor (q * 100 + (1 # 2))%Q in
  Z_to_string (n / 100) ++ "." ++ pad2 (Z_to_string (n mod 100)).

Definition toFixed2 (x : num) : string :=
  match x with
  | NaN => "NaN"
  | PInf => "Infinity"
  | NInf => "-Infinity"
  | Fin q => if Qle_bool 0 q then fixed2 q else "-" ++ fixed2 (- q)
  end.

(** [String(Math.round(x))]. *)
Definition round_to_string (x : num) : string :=
  match x with
  | Fin q => Z_to_string (Qfloor (q + (1 # 2))%Q)
  | NaN => "NaN"
  | PInf => "Infinity"
  | NInf => "-Infinity"
  end.

Definition is_finite (x : num) : Prop := exists q, x = Fin q.

End JSNum.

Import JSNum.

(* ------------------------------------------------------------------ *)
(** ** [Map<string, number>] *)

Module JSMap.

Definition t := list (string * nat).

Fixpoint get (m : t) (k : string) : option nat :=
  match m with
  | [] => None
  | (k', v) :: m' => if String.eqb k k' then Some v else get m' k
  end.

(** [m.set(k, v)]: an existing key keeps its position. *)
Fixpoint set (m : t) (k : string) (v : nat) : t :=
  match m with
  | [] => [(k, v)]
  | (k', v') :: m' => if String.eqb k k' then (k', v) :: m' else (k', v') :: set m' k v
  end.

(** [m.set(k, (m.get(k) ?? 0) + 1)]. *)
Definition incr (m : t) (k : string) : t :=
  set m k (match get m k with Some v => v | None => 0 end + 1).

End JSMap.

(* ------------------------------------------------------------------ *)
(** ** tools/keyword-density.ts *)

Module KeywordDensity.

Definition STOP_WORDS : list string :=
  [ "a"; "an"; "the"; "and"; "or"; "but"; "in"; "on"; "at"; "to"; "for";
    "of"; "with"; "by"; "from"; "is"; "are"; "was"; "were"; "be"; "been";
    "being"; "have"; "has"; "had"; "do"; "does"; "did"; "will"; "would";
    "could"; "should"; "may"; "might"; "shall"; "can"; "it"; "its";
    "this"; "that"; "these"; "those"; "i"; "you"; "he"; "she"; "we";
    "they"; "me"; "him"; "her"; "us"; "them"; "my"; "your"; "his";
    "our"; "their"; "what"; "which"; "who"; "whom"; "how"; "when";
    "where"; "why"; "not"; "no"; "so"; "if"; "then"; "than"; "as";
    "up"; "out"; "about"; "into"; "over"; "after"; "also"; "just";
    "more"; "most"; "very"; "all"; "each"; "every"; "both"; "few";
    "some"; "any"; "other"; "such"; "only"; "own"; "same"; "too" ].

(** [STOP_WORDS.has(w)]. *)
Definition is_stop (w : string) : bool := existsb (String.eqb w) STOP_WORDS.

(** The class [[a-z0-9\s'-]]. *)
Definition keep_char (c : ascii) : bool :=
  let n := nat_of_ascii c in
  ((97 <=? n) && (n <=? 122)) || ((48 <=? n) && (n <=? 57)) || is_space c
  || (n =? 39) || (n =? 45).

Definition tokenize (text : string) : list string :=
  filter (fun w => 1 <? String.length w)
    (split_ws (replace_not keep_char (toLowerCase text))).

(** The windows [words.slice(i, i + n)] for [i = 0 .. words.length - n]. *)
Fixpoint windows (n : nat) (ws : list string) : list (list string) :=
  match ws with
  | [] => if n =? 0 then [[]] else []
  | _ :: ws' => if n <=? List.length ws then firstn n ws :: windows n ws' else []
  end.

Definition count_gram (counts : JSMap.t) (gram : string) : JSMap.t :=
  if existsb is_stop (split_char " "%char gram) then counts
  else JSMap.incr counts gram.

Definition getNgrams (words : list string) (n : nat) : JSMap.t :=
  fold_left count_gram (map (String.concat " ") (windows n words)) [].

(** Stable sort by descending count ([Array.prototype.sort] is stable). *)
Fixpoint insert_desc (x : string * nat) (l : JSMap.t) : JSMap.t :=
  match l with
  | [] => [x]
  | y :: l' => if snd x <? snd y then y :: insert_desc x l' else x :: l
  end.

Definition sort_desc (l : JSMap.t) : JSMap.t := fold_right insert_desc [] l.

(** [(count / total) * 100] *)
Definition density_value (count total : nat) : num :=
  mul (div (of_nat count) (of_nat total)) (of_nat 100).

Definition density (count total : nat) : string :=
  toFixed2 (density_value count total) ++ "%".

Record Entry := { key : string; count : nat; dens : string }.

Definition topN (counts : JSMap.t) (n total : nat) : list Entry :=
  map (fun '(k, c) => {| key := k; count := c; dens := density c total |})
    (firstn n (sort_desc counts)).

Record Target := { keyword : string; tcount : nat; tdensity : string }.

Record KeywordResult := {
  totalWords : nat;
  uniqueWords : nat;
  targetKeyword : option Target;
  topSingleWords : list Entry;
  topBigrams : list Entry;
  topTrigrams : list Entry }.

Inductive Output := Error (msg : string) | Report (r : KeywordResult).

Definition count_word (counts : JSMap.t) (w : string) : JSMap.t :=
  if is_stop w then counts else JSMap.incr counts w.

(** The phrase counting loop
    [while ((idx = joined.indexOf(target, idx)) !== -1) { count++; idx += target.length; }]
    run with [fuel] iterations at most. *)
Fixpoint phrase_loop (fuel : nat) (joined target : string) (idx : nat) : nat :=
  match fuel with
  | 0 => 0
  | S f =>
      match indexOf joined target idx with
      | None => 0
      | Some p => S (phrase_loop f joined target (p + String.length target))
      end
  end.

Definition count_phrase (joined target : string) : nat :=
  phrase_loop (S (String.length joined)) joined target 0.

Definition target_count (words : list string) (wordCounts : JSMap.t) (target : string) : nat :=
  let targetWords := split_ws target in
  if List.length targetWords =? 1 then
    match JSMap.get wordCounts target with Some c => c | None => 0 end
  else count_phrase (String.concat " " words) target.

Definition keywordDensity (text : string) (targetKw : option string) : Output :=
  let words := tokenize text in
  let totalWords := List.length words in
  if totalWords =? 0 then Error "No words found in the provided text."
  else
    let uniqueWords := List.length (nodup string_dec words) in
    let wordCounts := fold_left count_word words [] in
    let bigrams := getNgrams words 2 in
    let trigrams := getNgrams words 3 in
    let targetResult :=
      match targetKw with
      | Some k =>
          if String.eqb k EmptyString then None
          else
            let target := trim (toLowerCase k) in
            let c := target_count words wordCounts target in
            Some {| keyword := k; tcount := c; tdensity := density c totalWords |}
      | None => None
      end in
    Report {| totalWords := totalWords;
              uniqueWords := uniqueWords;
              targetKeyword := targetResult;
              topSingleWords := topN wordCounts 15 totalWords;
              topBigrams := topN bigrams 10 totalWords;
              topTrigrams := topN trigrams 10 totalWords |}.

End KeywordDensity.

(* ------------------------------------------------------------------ *)
(** ** tools/readability.ts *)

Module Readability.

(** [s.split(re)] for a regular expression whose matches are non-empty;
    [m s] is the length of the match of [re] at the start of [s], if any.
    Each step consumes at least one character, so [String.length s + 1]
    steps are enough. *)
Fixpoint split_match_fuel (m : string -> option nat) (fuel : nat) (s : string) : list string :=
  match fuel with
  | 0 => [s]
  | S f =>
      match s with
      | EmptyString => [EmptyString]
      | String c s' =>
          match m s with
          | Some (S k) => EmptyString :: split_match_fuel m f (drop (S k) s)
          | _ => cons_head c (split_match_fuel m f s')
          end
      end
  end.

Definition split_match (m : string -> option nat) (s : string) : list string :=
  split_match_fuel m (S (String.length s)) s.

(** Length of the longest prefix of a whitespace run that ends in a newline. *)
Fixpoint last_newline_in_run (s : string) (k : nat) (best : option nat) : option nat :=
  match s with
  | EmptyString => best
  | String c s' =>
      if is_space c then
        last_newline_in_run s' (S k) (if Nat.eqb (nat_of_ascii c) 10 then Some (S k) else best)
      else best
  end.

(** The match of [/\n\s*\n/] at the start of [s]: [\s*] is greedy and gives
    characters back until a newline follows it. *)
Definition para_sep (s : string) : option nat :=
  match s with
  | String c s' =>
      if Nat.eqb (nat_of_ascii c) 10 then
        match last_newline_in_run s' 0 None with
        | Some k => Some (S k)
        | None => None
        end
      else None
  | EmptyString => None
  end.

Definition is_sentence_end (c : ascii) : bool :=
  let n := nat_of_ascii c in (n =? 46) || (n =? 33) || (n =? 63).

Definition splitSentences (text : string) : list string :=
  filter (fun s => 0 <? String.length s) (map trim (split_runs is_sentence_end text)).

(** The class [[a-zA-Z0-9\s'-]]. *)
Definition word_char (c : ascii) : bool :=
  let n := nat_of_ascii c in
  ((97 <=? n) && (n <=? 122)) || ((65 <=? n) && (n <=? 90)) || ((48 <=? n) && (n <=? 57))
  || is_space c || (n =? 39) || (n =? 45).

Definition splitWords (text : string) : list string :=
  filter (fun w => 0 <? String.length w) (split_ws (replace_not word_char text)).

Definition is_vowel (c : ascii) : bool :=
  existsb (Ascii.eqb c) ["a"; "e"; "i"; "o"; "u"; "y"]%char.

Fixpoint keep_lower (s : string) : string :=
  match s with
  | EmptyString => EmptyString
  | String c s' =>
      let n := nat_of_ascii c in
      if (97 <=? n) && (n <=? 122) then String c (keep_lower s') else keep_lower s'
  end.

(** Number of maximal vowel groups; [prev] tells whether the previous
    character was a vowel. *)
Fixpoint vowel_groups (prev : bool) (s : string) : nat :=
  match s with
  | EmptyString => 0
  | String c s' =>
      let v := is_vowel c in
      (if v && negb prev then 1 else 0) + vowel_groups v s'
  end.

Definition ends_with (t s : string) : bool :=
  starts_with (rev_str t) (rev_str s).

Definition countSyllables (word : string) : nat :=
  let w := keep_lower (toLowerCase word) in
  let len := String.length w in
  if len <=? 3 then 1
  else
    let c0 := vowel_groups false w in
    let c1 := if ends_with "e" w && (1 <? c0) then c0 - 1 else c0 in
    let c2 :=
      if ends_with "le" w && (2 <? len)
         && negb (match String.get (len - 3) w with Some ch => is_vowel ch | None => false end)
      then c1 + 1 else c1 in
    if c2 =? 0 then 1 else c2.

Definition interpretFleschEase (score : num) : string :=
  if le (Fin 90) score then "Very Easy (5th grade)"
  else if le (Fin 80) score then "Easy (6th grade)"
  else if le (Fin 70) score then "Fairly Easy (7th grade)"
  else if le (Fin 60) score then "Standard (8th-9th grade)"
  else if le (Fin 50) score then "Fairly Difficult (10th-12th grade)"
  else if le (Fin 30) score then "Difficult (college level)"
  else "Very Difficult (graduate level)".

Definition interpretGradeLevel (grade : num) : string :=
  if le grade (Fin 5) then "Elementary school level"
  else if le grade (Fin 8) then "Middle school level"
  else if le grade (Fin 12) then "High school level"
  else if le grade (Fin 16) then "College level"
  else "Graduate level".

Record Score := { score : num; interpretation : string }.

Record Stats := {
  wordCount : nat;
  sentenceCount : nat;
  syllableCount : nat;
  avgWordsPerSentence : num;
  avgSyllablesPerWord : num;
  readingTimeMinutes : num;
  paragraphCount : nat }.

Record ReadabilityResult := {
  fleschReadingEase : Score;
  fleschKincaidGrade : Score;
  stats : Stats;
  tips : list string }.

Inductive Output := Error (msg : string) | Report (r : ReadabilityResult).

(** [Math.round(x * k) / k]. *)
Definition round_to (k : Q) (x : num) : num := div (round (mul x (Fin k))) (Fin k).

Definition fleschEase_of (avgW avgS : num) : num :=
  sub (sub (Fin (206835 # 1000)) (mul (Fin (1015 # 1000)) avgW)) (mul (Fin (846 # 10)) avgS).

Definition fkGrade_of (avgW avgS : num) : num :=
  sub (add (mul (Fin (39 # 100)) avgW) (mul (Fin (118 # 10)) avgS)) (Fin (1559 # 100)).

Definition clampEase (x : num) : num := max (Fin 0) (min (Fin 100) (round_to 10 x)).

Definition clampGrade (x : num) : num := max (Fin 0) (round_to 10 x).

Definition readability (text : string) : Output :=
  let sentences := splitSentences text in
  let words := splitWords text in
  let paragraphs := filter (fun p => 0 <? String.length (trim p)) (split_match para_sep text) in
  let wordCount := List.length words in
  let sentenceCount := Nat.max (List.length sentences) 1 in
  let syllableCount := fold_left (fun sum w => sum + countSyllables w) words 0 in
  if wordCount <? 10 then
    Error "Text too short for meaningful analysis. Provide at least 10 words."
  else
    let avgW := div (of_nat wordCount) (of_nat sentenceCount) in
    let avgS := div (of_nat syllableCount) (of_nat wordCount) in
    let clampedEase := clampEase (fleschEase_of avgW avgS) in
    let clampedGrade := clampGrade (fkGrade_of avgW avgS) in
    let readingTime := round_to 10 (div (of_nat wordCount) (of_nat 238)) in
    let tip_long :=
      if lt (Fin 25) avgW then
        ["Sentences are long (avg " ++ round_to_string avgW
         ++ " words). Break them up for better readability."] else [] in
    let tip_complex :=
      if lt (Fin (17 # 10)) avgS then
        ["Many complex words. Use simpler alternatives where possible."] else [] in
    let tip_hard :=
      if lt clampedEase (Fin 50) then
        ["Text is difficult to read. Aim for a Flesch score of 60+ for general audiences."] else [] in
    let tip_para :=
      if (List.length paragraphs =? 1) && (100 <? wordCount) then
        ["Single large paragraph. Break into smaller paragraphs for better scannability."] else [] in
    let tips := app tip_long (app tip_complex (app tip_hard tip_para)) in
    Report {|
      fleschReadingEase := {| score := clampedEase; interpretation := interpretFleschEase clampedEase |};
      fleschKincaidGrade := {| score := clampedGrade; interpretation := interpretGradeLevel clampedGrade |};
      stats := {| wordCount := wordCount;
                  sentenceCount := sentenceCount;
                  syllableCount := syllableCount;
                  avgWordsPerSentence := round_to 10 avgW;
                  avgSyllablesPerWord := round_to 100 avgS;
                  readingTimeMinutes := readingTime;
                  paragraphCount := List.length paragraphs |};
      tips := tips |}.

End Readability.

(* ------------------------------------------------------------------ *)
(** ** tools/heading-structure.ts *)

Module HeadingStructure.

(** [HeadingInfo] of utils/html.ts; [extractHeadings] yields levels 1..6
    and non-empty texts. *)
Record HeadingInfo := { level : nat; text : string }.

(** The double-quote character. *)
Definition dq : string := String (ascii_of_nat 34) EmptyString.

Definition newline : string := String (ascii_of_nat 10) EmptyString.

Definition count_level (hs : list HeadingInfo) (l : nat) : nat :=
  List.length (filter (fun h => level h =? l) hs).

(** [hierarchy]: [{ H1: .., ..., H6: .. }] after the counting loop. *)
Definition hierarchy_of (hs : list HeadingInfo) : list (string * nat) :=
  map (fun l => ("H" ++ nat_to_string l, count_level hs l)) [1; 2; 3; 4; 5; 6].

Definition h1_issues (h1 : nat) : list string :=
  if h1 =? 0 then ["Missing H1 tag. Every page should have exactly one H1."]
  else if 1 <? h1 then
    ["Multiple H1 tags (" ++ nat_to_string h1 ++ "). Use only one H1 per page."]
  else [].

Definition skip_message (prev cur : HeadingInfo) : string :=
  "Skipped heading level: H" ++ nat_to_string (level prev) ++ " → H"
  ++ nat_to_string (level cur) ++ " (after " ++ dq ++ slice0 40 (text prev) ++ dq
  ++ "). Don't skip levels.".

(** The loop over [i = 1 .. usedLevels.length - 1]. *)
Fixpoint skip_issues (hs : list HeadingInfo) : list string :=
  match hs with
  | prev :: ((cur :: _) as rest) =>
      (if level prev + 1 <? level cur then [skip_message prev cur] else [])
      ++ skip_issues rest
  | _ => []
  end.

Definition first_issues (hs : list HeadingInfo) : list string :=
  match hs with
  | h :: _ =>
      if negb (level h =? 1) then
        ["First heading is H" ++ nat_to_string (level h) ++ ", not H1. Start with H1."]
      else []
  | [] => []
  end.

Definition long_issue (h : HeadingInfo) : list string :=
  if 70 <? String.length (text h) then
    ["H" ++ nat_to_string (level h) ++ " " ++ dq ++ slice0 40 (text h) ++ "..." ++ dq
     ++ " is " ++ nat_to_string (String.length (text h))
     ++ " chars. Keep headings under 70 chars."]
  else [].

Definition empty_issues (hs : list HeadingInfo) : list string :=
  match hs with
  | [] => ["No headings found on the page. Add headings to structure your content."]
  | _ => []
  end.

Definition outline_line (h : HeadingInfo) : string :=
  repeat_str "  " (level h - 1) ++ "H" ++ nat_to_string (level h) ++ ": " ++ text h.

Record HeadingAnalysis := {
  url : string;
  headingCount : nat;
  headings : list HeadingInfo;
  hierarchy : list (string * nat);
  issues : list string;
  outline : string;
  score : string }.

(** [headingStructure(url)] once [extractHeadings(html)] has produced [hs]. *)
Definition headingStructure (u : string) (hs : list HeadingInfo) : HeadingAnalysis :=
  let h1 := count_level hs 1 in
  let issues :=
    app (h1_issues h1)
      (app (skip_issues hs)
         (app (first_issues hs)
            (app (flat_map long_issue hs) (empty_issues hs)))) in
  let outline := String.concat newline (map outline_line hs) in
  let totalChecks := 4 in
  let passed :=
    totalChecks
    - (if h1 =? 0 then 1 else 0)
    - (if 1 <? h1 then 1 else 0)
    - (if existsb (fun i => includes i "Skipped") issues then 1 else 0)
    - (match hs with h :: _ => if negb (level h =? 1) then 1 else 0 | [] => 0 end) in
  {| url := u;
     headingCount := List.length hs;
     headings := hs;
     hierarchy := hierarchy_of hs;
     issues := issues;
     outline := if String.eqb outline EmptyString then "(no headings)" else outline;
     score := nat_to_string passed ++ "/" ++ nat_to_string totalChecks |}.

(** An issue reporting a skipped level. *)
Definition is_skip_issue (i : string) : bool := starts_with "Skipped heading level: " i.

End HeadingStructure.

(* ------------------------------------------------------------------ *)
(** ** utils/html.ts: title, meta tags and canonical link *)

Module Html.

(** Case-insensitive comparison of a text character with an ASCII pattern
    character (regular expressions with the [i] flag). *)
Definition ci_eq (a b : ascii) : bool := Ascii.eqb (to_lower_char a) (to_lower_char b).

Fixpoint ci_starts_with (t s : string) : bool :=
  match t, s with
  | EmptyString, _ => true
  | String a t', String b s' => ci_eq a b && ci_starts_with t' s'
  | String _ _, EmptyString => false
  end.

Definition is_quote (c : ascii) : bool :=
  (nat_of_ascii c =? 34) || (nat_of_ascii c =? 39).

Definition is_gt (c : ascii) : bool := nat_of_ascii c =? 62.

(** The run [[^>]*] followed by [>]: the text before the first [>] and the
    text after it. *)
Fixpoint upto_gt (s : string) : option (string * string) :=
  match s with
  | EmptyString => None
  | String c s' =>
      if is_gt c then Some (EmptyString, s')
      else match upto_gt s' with
           | Some (b, r) => Some (String c b, r)
           | None => None
           end
  end.

(** The lazy run [[\s\S]*?] followed by the pattern [t] (case-insensitive):
    the text before the first occurrence of [t]. *)
Fixpoint upto_ci (t s : string) : option string :=
  if ci_starts_with t s then Some EmptyString
  else match s with
       | EmptyString => None
       | String c s' =>
           match upto_ci t s' with Some b => Some (String c b) | None => None end
       end.

(** A run of non-quote characters followed by a quote (single or double):
    the quoted value and the rest. *)
Fixpoint upto_quote (s : string) : option (string * string) :=
  match s with
  | EmptyString => None
  | String c s' =>
      if is_quote c then Some (EmptyString, s')
      else match upto_quote s' with
           | Some (b, r) => Some (String c b, r)
           | None => None
           end
  end.

(** Leftmost match: the first suffix of [s] on which [m] succeeds. *)
Fixpoint first_match {A : Type} (m : string -> option A) (s : string) : option A :=
  match m s with
  | Some a => Some a
  | None => match s with EmptyString => None | String _ s' => first_match m s' end
  end.

(** [/<title[^>]*>([\s\S]*?)<\/title>/i] at the start of [s]. *)
Definition title_at (s : string) : option string :=
  if ci_starts_with "<title" s then
    match upto_gt (drop 6 s) with
    | Some (_, rest) => upto_ci "</title>" rest
    | None => None
    end
  else None.

Definition extractTitle (html : string) : option string :=
  match first_match title_at html with Some t => Some (trim t) | None => None end.

(** [getAttr(attrs, name)]: the regular expression [name=Q(V)Q] with flag [i],
    where Q is a single or double quote and V a run of non-quote characters. *)
Definition attr_at (name s : string) : option string :=
  if ci_starts_with (name ++ "=") s then
    match drop (String.length name + 1) s with
    | String q rest => if is_quote q then option_map fst (upto_quote rest) else None
    | EmptyString => None
    end
  else None.

Definition getAttr (attrs name : string) : option string := first_match (attr_at name) attrs.

Record MetaTag := { property : option string; name : option string; content : string }.

(** [/<meta\s+([^>]*?)\/?>/gi] at the start of [s]: the captured attributes
    and the text after the match.  [\s+] takes the whole whitespace run and
    the lazy capture ends before [/>] or [>], whichever comes first. *)
Definition meta_at (s : string) : option (string * string) :=
  if ci_starts_with "<meta" s then
    match drop 5 s with
    | String c _ as r =>
        if is_space c then
          match upto_gt (trim_start r) with
          | Some (body, rest) =>
              let attrs :=
                match rev_str body with
                | String l b' => if nat_of_ascii l =? 47 then rev_str b' else body
                | EmptyString => body
                end in
              Some (attrs, rest)
          | None => None
          end
        else None
    | EmptyString => None
    end
  else None.

Definition truthy (o : option string) : bool :=
  match o with Some v => negb (String.eqb v EmptyString) | None => false end.

Definition tag_of (attrs : string) : option MetaTag :=
  let property := getAttr attrs "property" in
  let name := getAttr attrs "name" in
  let content := match getAttr attrs "content" with Some c => c | None => EmptyString end in
  if truthy property || truthy name
  then Some {| property := property; name := name; content := content |}
  else None.

(** The [regex.exec] loop of [extractMetaTags]; the search resumes after
    each match. *)
Fixpoint meta_scan (fuel : nat) (s : string) : list MetaTag :=
  match fuel with
  | 0 => []
  | S f =>
      match meta_at s with
      | Some (attrs, rest) =>
          match tag_of attrs with
          | Some t => t :: meta_scan f rest
          | None => meta_scan f rest
          end
      | None =>
          match s with EmptyString => [] | String _ s' => meta_scan f s' end
      end
  end.

Definition extractMetaTags (html : string) : list MetaTag :=
  meta_scan (S (String.length html)) html.

(** [rel=QcanonicalQ] (Q a single or double quote) at the start of [s];
    it spans 15 characters. *)
Definition rel_at (s : string) : bool :=
  ci_starts_with "rel=" s
  && match drop 4 s with
     | String q1 r =>
         is_quote q1 && ci_starts_with "canonical" r
         && match drop 9 r with String q2 _ => is_quote q2 | EmptyString => false end
     | EmptyString => false
     end.

(** [href=Q(V)Q] at the start of [s]: its length and the value V. *)
Definition href_at (s : string) : option (nat * string) :=
  if ci_starts_with "href=" s then
    match drop 5 s with
    | String q r =>
        if is_quote q then
          match upto_quote r with
          | Some (v, _) => Some (5 + 1 + String.length v + 1, v)
          | None => None
          end
        else None
    | EmptyString => None
    end
  else None.

Fixpoint suffixes (s : string) (k : nat) : list (nat * string) :=
  match s with
  | EmptyString => [(k, s)]
  | String _ s' => (k, s) :: suffixes s' (S k)
  end.

Definition rel_positions (body : string) : list nat :=
  map fst (filter (fun '(_, suf) => rel_at suf) (suffixes body 0)).

Definition href_matches (body : string) : list (nat * nat * string) :=
  flat_map (fun '(k, suf) => match href_at suf with Some (l, v) => [(k, l, v)] | None => [] end)
    (suffixes body 0).

Definition last_opt {A : Type} (l : list A) : option A :=
  match rev l with a :: _ => Some a | [] => None end.

(** Inside one [<link ...>] tag body (the text before the first [>]) the
    greedy [[^>]*] runs select the rightmost combination:
    [rel] before [href] gives the rightmost [href] that starts after the end
    of some [rel] ... *)
Definition canonical_rel_first (body : string) : option string :=
  let rels := rel_positions body in
  option_map snd
    (last_opt (filter (fun '(k, _, _) => existsb (fun r => r + 15 <=? k) rels)
                 (href_matches body))).

(** ... and [href] before [rel] gives the rightmost [href] that ends before
    the start of some [rel]. *)
Definition canonical_href_first (body : string) : option string :=
  let rels := rel_positions body in
  option_map snd
    (last_opt (filter (fun '(k, l, _) => existsb (fun r => k + l <=? r) rels)
                 (href_matches body))).

Definition link_at (inner : string -> option string) (s : string) : option string :=
  if ci_starts_with "<link" s then
    match upto_gt (drop 5 s) with
    | Some (body, _) => inner body
    | None => None
    end
  else None.

Definition extractCanonical (html : string) : option string :=
  match first_match (link_at canonical_rel_first) html with
  | Some v => Some v
  | None => first_match (link_at canonical_href_first) html
  end.

End Html.

(* ------------------------------------------------------------------ *)
(** ** tools/meta-tags.ts *)

Module MetaTags.

Import Html.

(** A [Record<string, string>] filled by assignments; a later assignment to
    the same key overwrites the earlier one. *)
Definition record := list (string * string).

Fixpoint rget (m : record) (k : string) : option string :=
  match m with
  | [] => None
  | (k', v) :: m' => if String.eqb k k' then Some v else rget m' k
  end.

Fixpoint rset (m : record) (k v : string) : record :=
  match m with
  | [] => [(k, v)]
  | (k', v') :: m' => if String.eqb k k' then (k', v) :: m' else (k', v') :: rset m' k v
  end.

Definition starts_opt (p : string) (o : option string) : bool :=
  match o with Some v => starts_with p v | None => false end.

Record Groups := { og : record; tw : record; oth : record }.

(** One iteration of the [for (const tag of tags)] loop. *)
Definition group_tag (g : Groups) (tag : MetaTag) : Groups :=
  if starts_opt "og:" (property tag) then
    match property tag with
    | Some p => {| og := rset (og g) p (content tag); tw := tw g; oth := oth g |}
    | None => g
    end
  else if starts_opt "twitter:" (name tag) || starts_opt "twitter:" (property tag) then
    let k := match name tag with
             | Some n => n
             | None => match property tag with Some p => p | None => EmptyString end
             end in
    {| og := og g; tw := rset (tw g) k (content tag); oth := oth g |}
  else match name tag with
       | Some n =>
           if truthy (Some n) && negb (String.eqb n "description")
           then {| og := og g; tw := tw g; oth := rset (oth g) n (content tag) |}
           else g
       | None => g
       end.

Record Field := { value : option string; flen : option nat; ok : bool; tip : option string }.

Record MetaAnalysis := {
  url : string;
  title : Field;
  description : Field;
  canonical : option string;
  openGraph : record;
  twitter : record;
  other : record;
  issues : list string;
  score : string }.

Definition missing (r : record) (k : string) (msg : string) : list string :=
  if truthy (rget r k) then [] else [msg].

Definition len_opt (o : option string) : nat :=
  match o with Some v => String.length v | None => 0 end.

(** [metaTags(url)] once [fetchPage(url)] has returned the markup [html]. *)
Definition metaTags (u html : string) : MetaAnalysis :=
  let tags := extractMetaTags html in
  let title := extractTitle html in
  let canonical := extractCanonical html in
  let descTag := find (fun t => match name t with
                                | Some n => String.eqb n "description"
                                | None => false end) tags in
  let description := match descTag with Some t => Some (content t) | None => None end in
  let g := fold_left group_tag tags {| og := []; tw := []; oth := [] |} in
  let titleLen := len_opt title in
  let '(title_issues, titleOk, titleTip) :=
    if negb (truthy title) then
      (["Missing <title> tag"], false, Some "Add a unique, descriptive title (50-60 characters)")
    else if titleLen <? 30 then
      ([], true, Some "Title is short. Aim for 50-60 characters for better CTR.")
    else if 60 <? titleLen then
      ([], true, Some "Title may be truncated in SERPs. Keep under 60 characters.")
    else ([], true, None) in
  let descLen := len_opt description in
  let '(desc_issues, descOk, descTip) :=
    if negb (truthy description) then
      (["Missing meta description"], false,
       Some "Add a meta description (120-160 characters) to improve CTR.")
    else if descLen <? 70 then
      ([], true, Some "Description is short. Aim for 120-160 characters.")
    else if 160 <? descLen then
      ([], true, Some "Description may be truncated. Keep under 160 characters.")
    else ([], true, None) in
  let issues :=
    app title_issues
      (app desc_issues
         (app (missing (og g) "og:title" "Missing og:title")
            (app (missing (og g) "og:description" "Missing og:description")
               (app (missing (og g) "og:image" "Missing og:image (no preview image for social shares)")
                  (app (missing (og g) "og:url" "Missing og:url")
                     (app (missing (tw g) "twitter:card" "Missing twitter:card")
                        (if truthy canonical then [] else ["No canonical URL set"]))))))) in
  let totalChecks := 8%Z in
  let passed := (totalChecks - Z.of_nat (List.length issues))%Z in
  {| url := u;
     title := {| value := title; flen := if titleLen =? 0 then None else Some titleLen;
                 ok := titleOk; tip := titleTip |};
     description := {| value := description; flen := if descLen =? 0 then None else Some descLen;
                       ok := descOk; tip := descTip |};
     canonical := canonical;
     openGraph := og g;
     twitter := tw g;
     other := oth g;
     issues := issues;
     score := Z_to_string passed ++ "/" ++ Z_to_string totalChecks |}.

End MetaTags.

(* ------------------------------------------------------------------ *)
(** ** Observations on the reports used by the statements below *)

Module Observe.

Import KeywordDensity.

(** The target count of a keyword-density report. *)
Definition target_count_of (o : KeywordDensity.Output) : option nat :=
  match o with
  | Report r => option_map tcount (targetKeyword r)
  | Error _ => None
  end.

(** Reading of the spec: the number of (possibly overlapping) occurrences
    of [t] in [s], i.e. the positions of [s] at which [t] starts. *)
Fixpoint count_overlapping (t s : string) : nat :=
  (if starts_with t s then 1 else 0)
  + match s with EmptyString => 0 | String _ s' => count_overlapping t s' end.

(** Non-overlapping occurrences of [t] found left to right: a position is
    counted when [t] starts there and the position is not covered by the
    previous counted occurrence ([cool] positions remain covered). *)
Fixpoint greedy_aux (t : string) (cool : nat) (s : string) : nat :=
  match s with
  | EmptyString => 0
  | String _ s' =>
      match cool with
      | S k => greedy_aux t k s'
      | 0 => if starts_with t s then S (greedy_aux t (String.length t - 1) s')
             else greedy_aux t 0 s'
      end
  end.

Definition count_nonoverlapping (t s : string) : nat := greedy_aux t 0 s.

(** The text of an entry of a report is a density produced from a finite
    number: [toFixed(2)] of a non-negative finite value, then [%]. *)
Definition finite_density (d : string) : Prop :=
  exists q, (0 <= q)%Q /\ d = toFixed2 (Fin q) ++ "%".

(** A tag that is neither a description, nor an Open Graph tag, nor a
    Twitter tag. *)
Definition plain_tag (t : Html.MetaTag) : bool :=
  negb (MetaTags.starts_opt "og:" (Html.property t))
  && negb (MetaTags.starts_opt "twitter:" (Html.property t))
  && negb (MetaTags.starts_opt "twitter:" (Html.name t))
  && negb (match Html.name t with Some n => String.eqb n "description" | None => false end).

(** Every key of a map satisfies [P]. *)
Definition keys_ok (P : string -> Prop) (m : JSMap.t) : Prop :=
  forall kv, In kv m -> P (fst kv).

End Observe.

(* ------------------------------------------------------------------ *)
(** ** A sequence of tool calls

    The only module-level value of keyword-density.ts is the [STOP_WORDS]
    set, which no function writes; readability.ts has none.  A session
    threads that module state through the calls in order. *)

Module Session.

Inductive call := KD (text : string) (target : option string) | RD (text : string).

Inductive result := KDOut (o : KeywordDensity.Output) | RDOut (o : Readability.Output).

Record State := { stop_words : list string }.

Definition init : State := {| stop_words := KeywordDensity.STOP_WORDS |}.

Definition step (st : State) (c : call) : result * State :=
  match c with
  | KD t k => (KDOut (KeywordDensity.keywordDensity t k), st)
  | RD t => (RDOut (Readability.readability t), st)
  end.

Fixpoint run (st : State) (cs : list call) : list result * State :=
  match cs with
  | [] => ([], st)
  | c :: cs' =>
      let '(r, st') := step st c in
      let '(rs, st'') := run st' cs' in
      (r :: rs, st'')
  end.

(** Output of the last call of a session. *)
Definition last_output (cs : list call) : option result :=
  Html.last_opt (fst (run init cs)).

End Session.

(* ------------------------------------------------------------------ *)
(** ** Further models: extraction helpers, robots.txt and sitemaps *)

Module KDefs.
Import KeywordDensity.

(** The characters a token can contain: [[a-z0-9'-]]. *)
Definition token_char (c : ascii) : bool :=
  let n := nat_of_ascii c in
  ((97 <=? n) && (n <=? 122)) || ((48 <=? n) && (n <=? 57)) || (n =? 39) || (n =? 45).

Fixpoint char_all (f : ascii -> bool) (s : string) : bool :=
  match s with
  | EmptyString => true
  | String c s' => f c && char_all f s'
  end.

(** Number of occurrences of [w] in [l]. *)
Definition occ (w : string) (l : list string) : nat := count_occ string_dec l w.

(** [m.get(k) ?? 0]. *)
Definition mval (m : JSMap.t) (k : string) : nat :=
  match JSMap.get m k with Some v => v | None => 0 end.

(** A list of counts in non-increasing order. *)
Fixpoint desc (l : list nat) : Prop :=
  match l with
  | a :: ((b :: _) as t) => b <= a /\ desc t
  | _ => True
  end.

(** Every entry of a map satisfies [P]. *)
Definition pairs_ok (P : string * nat -> Prop) (m : JSMap.t) : Prop :=
  forall kv, In kv m -> P kv.

Definition head_le (a : nat) (l : list nat) : Prop :=
  match l with [] => True | b :: _ => b <= a end.

End KDefs.

Module HtmlExtract.

Import Html.

Definition is_lt (c : ascii) : bool := nat_of_ascii c =? 60.

(** [html.replace(/<[^>]*>/g, "")]: a [<] followed somewhere by a [>]
    starts a match that ends at the first such [>]; the search resumes
    after it. *)
Fixpoint remove_tags (fuel : nat) (s : string) : string :=
  match fuel with
  | 0 => s
  | S f =>
      match s with
      | EmptyString => EmptyString
      | String c s' =>
          if is_lt c then
            match upto_gt s' with
            | Some (_, rest) => remove_tags f rest
            | None => String c (remove_tags f s')
            end
          else String c (remove_tags f s')
      end
  end.

(** The class [[a-z]] under the [i] flag. *)
Definition is_letter (c : ascii) : bool :=
  let n := nat_of_ascii c in ((97 <=? n) && (n <=? 122)) || ((65 <=? n) && (n <=? 90)).

(** The maximal run of characters satisfying [p] and the text after it. *)
Fixpoint take_while (p : ascii -> bool) (s : string) : string * string :=
  match s with
  | EmptyString => (EmptyString, EmptyString)
  | String c s' =>
      if p c then let '(a, b) := take_while p s' in (String c a, b)
      else (EmptyString, s)
  end.

(** [s.replace(/&[a-z]+;/gi, " ")]: [[a-z]+] is greedy and a match needs a
    [;] right after the letters. *)
Fixpoint replace_entities (fuel : nat) (s : string) : string :=
  match fuel with
  | 0 => s
  | S f =>
      match s with
      | EmptyString => EmptyString
      | String c s' =>
          if nat_of_ascii c =? 38 then
            match take_while is_letter s' with
            | (String _ _ as letters, String sc rest) =>
                if nat_of_ascii sc =? 59 then String " " (replace_entities f rest)
                else String c (replace_entities f s')
            | _ => String c (replace_entities f s')
            end
          else String c (replace_entities f s')
      end
  end.

(** [s.replace(/\s+/g, " ")]: each maximal whitespace run becomes one space;
    [prev] tells whether the previous character was whitespace. *)
Fixpoint collapse_ws (prev : bool) (s : string) : string :=
  match s with
  | EmptyString => EmptyString
  | String c s' =>
      if is_space c then
        if prev then collapse_ws true s' else String " " (collapse_ws true s')
      else String c (collapse_ws false s')
  end.

Definition stripTags (html : string) : string :=
  let s1 := remove_tags (S (String.length html)) html in
  let s2 := replace_entities (S (String.length s1)) s1 in
  collapse_ws false s2.

(** [/<h([1-6])[^>]*>([\s\S]*?)<\/h\1>/gi] at the start of [s]: the level,
    the captured content and the text after the match. *)
Definition heading_at (s : string) : option (nat * string * string) :=
  if ci_starts_with "<h" s then
    match drop 2 s with
    | String d r =>
        let n := nat_of_ascii d in
        if (49 <=? n) && (n <=? 54) then
          match upto_gt r with
          | Some (_, r2) =>
              match upto_ci ("</h" ++ String d ">") r2 with
              | Some content => Some (n - 48, content, drop (String.length content + 5) r2)
              | None => None
              end
          | None => None
          end
        else None
    | EmptyString => None
    end
  else None.

(** The [regex.exec] loop of [extractHeadings]. *)
Fixpoint heading_scan (fuel : nat) (s : string) : list HeadingStructure.HeadingInfo :=
  match fuel with
  | 0 => []
  | S f =>
      match heading_at s with
      | Some (lvl, content, rest) =>
          let t := trim (stripTags content) in
          if String.eqb t EmptyString then heading_scan f rest
          else {| HeadingStructure.level := lvl; HeadingStructure.text := t |} :: heading_scan f rest
      | None =>
          match s with EmptyString => [] | String _ s' => heading_scan f s' end
      end
  end.

Definition extractHeadings (html : string) : list HeadingStructure.HeadingInfo :=
  heading_scan (S (String.length html)) html.

Record Link := { href : string; ltext : string; isInternal : bool }.

(** [/<a\s+([^>]*?)>([\s\S]*?)<\/a>/gi] at the start of [s]: the captured
    attributes, the captured content and the text after the match. *)
Definition anchor_at (s : string) : option (string * string * string) :=
  if ci_starts_with "<a" s then
    match drop 2 s with
    | String c _ as r =>
        if is_space c then
          match upto_gt (trim_start r) with
          | Some (attrs, r2) =>
              match upto_ci "</a>" r2 with
              | Some content => Some (attrs, content, drop (String.length content + 4) r2)
              | None => None
              end
          | None => None
          end
        else None
    | EmptyString => None
    end
  else None.

Fixpoint link_scan (fuel : nat) (s : string) : list Link :=
  match fuel with
  | 0 => []
  | S f =>
      match anchor_at s with
      | Some (attrs, content, rest) =>
          let t := trim (stripTags content) in
          match getAttr attrs "href" with
          | Some h =>
              if truthy (Some h) then
                {| href := h; ltext := t;
                   isInternal := starts_with "/" h || starts_with "#" h |} :: link_scan f rest
              else link_scan f rest
          | None => link_scan f rest
          end
      | None =>
          match s with EmptyString => [] | String _ s' => link_scan f s' end
      end
  end.

Definition extractLinks (html : string) : list Link :=
  link_scan (S (String.length html)) html.

(** [headingStructure(url)] of tools/heading-structure.ts, from the fetched
    markup. *)
Definition headingStructurePage (u html : string) : HeadingStructure.HeadingAnalysis :=
  HeadingStructure.headingStructure u (extractHeadings html).

End HtmlExtract.

Module Robots.

(** [parseFloat(s)]: leading whitespace is skipped, then the longest prefix
    of the form [[+-]Infinity] or [[+-]digits[.digits][e[+-]digits]] (or
    [.digits] with the same sign and exponent) is read; NaN when there is
    none.  The value is exact (see [num]); -0 is 0. *)
Definition is_digit (c : ascii) : bool :=
  (48 <=? nat_of_ascii c) && (nat_of_ascii c <=? 57).

Fixpoint digits_value (acc : Z) (s : string) : Z :=
  match s with
  | EmptyString => acc
  | String c s' => digits_value (acc * 10 + Z.of_nat (nat_of_ascii c - 48))%Z s'
  end.

Definition exponent (s : string) : Z :=
  match s with
  | String e r =>
      if (nat_of_ascii e =? 101) || (nat_of_ascii e =? 69) then
        let '(sg, r') :=
          match r with
          | String c r1 =>
              if nat_of_ascii c =? 43 then (1%Z, r1)
              else if nat_of_ascii c =? 45 then ((-1)%Z, r1) else (1%Z, r)
          | EmptyString => (1%Z, r)
          end in
        let '(ds, _) := HtmlExtract.take_while is_digit r' in
        match ds with
        | EmptyString => 0%Z
        | _ => (sg * digits_value 0 ds)%Z
        end
      else 0%Z
  | EmptyString => 0%Z
  end.

Definition parseFloat (s : string) : num :=
  let s1 := trim_start s in
  let '(sg, s2) :=
    match s1 with
    | String c r =>
        if nat_of_ascii c =? 43 then (1%Z, r)
        else if nat_of_ascii c =? 45 then ((-1)%Z, r) else (1%Z, s1)
    | EmptyString => (1%Z, s1)
    end in
  if starts_with "Infinity" s2 then (if (sg =? 1)%Z then PInf else NInf)
  else
    let '(ip, r1) := HtmlExtract.take_while is_digit s2 in
    let '(fp, r2) :=
      match r1 with
      | String d r => if nat_of_ascii d =? 46 then HtmlExtract.take_while is_digit r else (EmptyString, r1)
      | EmptyString => (EmptyString, r1)
      end in
    if String.eqb ip EmptyString && String.eqb fp EmptyString then NaN
    else
      Fin (inject_Z (sg * digits_value 0 (ip ++ fp))
           * Qpower (inject_Z 10) (exponent r2 - Z.of_nat (String.length fp)))%Q.

Record RobotsRule := {
  userAgent : string;
  allow : list string;
  disallow : list string;
  crawlDelay : option num }.

Record RobotsAnalysis := {
  url : string;
  found : bool;
  rules : list RobotsRule;
  sitemaps : list string;
  issues : list string;
  summary : string }.

(** The loop state: [rules], [sitemaps] and [current]. *)
Record PState := { p_rules : list RobotsRule; p_sitemaps : list string; current : option RobotsRule }.

(** [const [key, ...rest] = line.split(":")], [value = rest.join(":").trim()],
    [keyLower = key.toLowerCase().trim()]. *)
Definition directive (line : string) : string * string :=
  let parts := split_char ":" line in
  (trim (toLowerCase (hd EmptyString parts)), trim (String.concat ":" (tl parts))).

Definition with_current (st : PState) (c : RobotsRule) : PState :=
  {| p_rules := p_rules st; p_sitemaps := p_sitemaps st; current := Some c |}.

(** One iteration of [for (const line of lines)]. *)
Definition step (st : PState) (line : string) : PState :=
  if String.eqb line EmptyString || starts_with "#" line then st
  else
    let '(keyLower, value) := directive line in
    if String.eqb keyLower "user-agent" then
      {| p_rules := match current st with Some c => app (p_rules st) [c] | None => p_rules st end;
         p_sitemaps := p_sitemaps st;
         current := Some {| userAgent := value; allow := []; disallow := []; crawlDelay := None |} |}
    else
      match current st with
      | Some c =>
          if String.eqb keyLower "disallow" then
            if String.eqb value EmptyString then st
            else with_current st {| userAgent := userAgent c; allow := allow c;
                                    disallow := app (disallow c) [value]; crawlDelay := crawlDelay c |}
          else if String.eqb keyLower "allow" then
            if String.eqb value EmptyString then st
            else with_current st {| userAgent := userAgent c; allow := app (allow c) [value];
                                    disallow := disallow c; crawlDelay := crawlDelay c |}
          else if String.eqb keyLower "crawl-delay" then
            let delay := parseFloat value in
            if is_nan delay then st
            else with_current st {| userAgent := userAgent c; allow := allow c;
                                    disallow := disallow c; crawlDelay := Some delay |}
          else if String.eqb keyLower "sitemap" then
            {| p_rules := p_rules st; p_sitemaps := app (p_sitemaps st) [value]; current := current st |}
          else st
      | None =>
          if String.eqb keyLower "sitemap" then
            {| p_rules := p_rules st; p_sitemaps := app (p_sitemaps st) [value]; current := current st |}
          else st
      end.

Definition newline_char : ascii := ascii_of_nat 10.

(** [robotsTxt(url)] once the fetch of [robotsUrl] has answered: [found] is
    [status === 200] and [text] the body. *)
Definition robotsTxt (robotsUrl : string) (found : bool) (text : string) : RobotsAnalysis :=
  if negb found then
    {| url := robotsUrl; found := false; rules := []; sitemaps := [];
       issues := ["No robots.txt found. Search engines will crawl all pages by default."];
       summary := "No robots.txt file exists at this domain." |}
  else
    let lines := map trim (split_char newline_char text) in
    let st := fold_left step lines {| p_rules := []; p_sitemaps := []; current := None |} in
    let rules := match current st with Some c => app (p_rules st) [c] | None => p_rules st end in
    let sitemaps := p_sitemaps st in
    let totalDisallowed := fold_left (fun sum r => sum + List.length (disallow r)) rules 0 in
    let issues :=
      app (if List.length sitemaps =? 0
           then ["No Sitemap directive found. Add one to help search engines discover pages."] else [])
      (app (match find (fun r => String.eqb (userAgent r) "*") rules with
            | Some _ => []
            | None => ["No rules for User-agent: *. Consider adding a default rule set."] end)
      (app (if totalDisallowed =? 0
            then ["No Disallow rules. Everything is crawlable (may be intentional)."] else [])
           (if existsb (fun r => existsb (String.eqb "/") (disallow r)) rules
            then ["WARNING: Disallow: / blocks ALL crawling for that user-agent."] else []))) in
    {| url := robotsUrl; found := true; rules := rules; sitemaps := sitemaps; issues := issues;
       summary := "Found " ++ nat_to_string (List.length rules) ++ " user-agent block(s), "
                  ++ nat_to_string totalDisallowed ++ " disallow rule(s), "
                  ++ nat_to_string (List.length sitemaps) ++ " sitemap(s)." |}.

End Robots.

Module Sitemap.

Import Html.

Inductive Format := FXml | FIndex | FText | FUnknown.

(** [format.toUpperCase()] for the formats that reach the summary. *)
Definition format_upper (f : Format) : string :=
  match f with FXml => "XML" | FIndex => "INDEX" | FText => "TEXT" | FUnknown => "UNKNOWN" end.

Record SitemapAnalysis := {
  url : string;
  found : bool;
  format : Format;
  urlCount : nat;
  sampleUrls : list string;
  lastModDates : list string;
  childSitemaps : list string;
  issues : list string;
  summary : string }.

(** Line terminators within 0..255 (the characters [.] does not match). *)
Definition is_line_term (c : ascii) : bool := (nat_of_ascii c =? 10) || (nat_of_ascii c =? 13).

(** [(.*?)\s*CLOSE] from the start of [r]: the shortest run of
    non-terminator characters after which a (greedy) whitespace run and
    [close] follow; the capture and the text after the match. *)
Fixpoint lazy_close (close : string) (r : string) : option (string * string) :=
  if ci_starts_with close (trim_start r)
  then Some (EmptyString, drop (String.length close) (trim_start r))
  else match r with
       | EmptyString => None
       | String c r0 =>
           if is_line_term c then None
           else match lazy_close close r0 with
                | Some (v, rest) => Some (String c v, rest)
                | None => None
                end
       end.

(** [/OPEN\s*(.*?)\s*CLOSE/i] at the start of [s]: the greedy [\s*] takes
    the whole whitespace run (giving some of it back never helps). *)
Definition tag_value_at (open close : string) (s : string) : option (string * string) :=
  if ci_starts_with open s then lazy_close close (trim_start (drop (String.length open) s))
  else None.

(** [while ((match = locRegex.exec(text)) !== null) childSitemaps.push(match[1])]. *)
Fixpoint loc_scan (fuel : nat) (s : string) : list string :=
  match fuel with
  | 0 => []
  | S f =>
      match tag_value_at "<loc>" "</loc>" s with
      | Some (v, rest) => v :: loc_scan f rest
      | None => match s with EmptyString => [] | String _ s' => loc_scan f s' end
      end
  end.

(** [/<url>([\s\S]*?)<\/url>/gi] at the start of [s]. *)
Definition url_block_at (s : string) : option (string * string) :=
  if ci_starts_with "<url>" s then
    match upto_ci "</url>" (drop 5 s) with
    | Some content => Some (content, drop (String.length content + 6) (drop 5 s))
    | None => None
    end
  else None.

(** The loop over url blocks: each block gives its first [<loc>] and its
    first [<lastmod>] value, if any. *)
Fixpoint block_scan (fuel : nat) (s : string) : list string * list string :=
  match fuel with
  | 0 => ([], [])
  | S f =>
      match url_block_at s with
      | Some (block, rest) =>
          let '(us, ds) := block_scan f rest in
          let us' := match first_match (tag_value_at "<loc>" "</loc>") block with
                     | Some (v, _) => v :: us | None => us end in
          let ds' := match first_match (tag_value_at "<lastmod>" "</lastmod>") block with
                     | Some (v, _) => v :: ds | None => ds end in
          (us', ds')
      | None => match s with EmptyString => ([], []) | String _ s' => block_scan f s' end
      end
  end.

(** Format detection and collection: the format, [urls], [lastModDates]
    and [childSitemaps]. *)
Definition collect (text : string) : Format * list string * list string * list string :=
  if includes text "<sitemapindex" then
    (FIndex, [], [], loc_scan (S (String.length text)) text)
  else if includes text "<urlset" then
    let '(us, ds) := block_scan (S (String.length text)) text in (FXml, us, ds, [])
  else if starts_with "http" (trim text) then
    (FText, filter (fun l => negb (String.eqb l EmptyString))
              (map trim (split_char Robots.newline_char text)), [], [])
  else (FUnknown, [], [], []).

(** [[...new Set(l)]]: first occurrences, in order. *)
Fixpoint dedup (seen : list string) (l : list string) : list string :=
  match l with
  | [] => []
  | x :: l' => if existsb (String.eqb x) seen then dedup seen l' else x :: dedup (x :: seen) l'
  end.

Definition is_list_format (f : Format) : bool :=
  match f with FXml | FText => true | _ => false end.

(** [sitemapCheck(url)] once the fetch of [sitemapUrl] has answered with
    [status] and the body [text]. *)
Definition sitemapCheck (sitemapUrl : string) (status : nat) (text : string) : SitemapAnalysis :=
  if negb (status =? 200) then
    {| url := sitemapUrl; found := false; format := FUnknown; urlCount := 0;
       sampleUrls := []; lastModDates := []; childSitemaps := [];
       issues := ["Sitemap returned HTTP " ++ nat_to_string status ++ ". Not found or not accessible."];
       summary := "Sitemap not found." |}
  else
    let '(fmt, urls, lastmods, children) := collect text in
    let nonHttps := filter (fun u => negb (starts_with "https://" u)) urls in
    let uniq := List.length (dedup [] urls) in
    let list_issues :=
      if is_list_format fmt then
        app (if List.length urls =? 0 then ["Sitemap contains 0 URLs."]
             else if (50000 <? Z.of_nat (List.length urls))%Z then
               ["Sitemap has " ++ nat_to_string (List.length urls)
                ++ " URLs. Max recommended per sitemap is 50,000."]
             else [])
        (app (if 0 <? List.length nonHttps
              then [nat_to_string (List.length nonHttps) ++ " URL(s) are not HTTPS."] else [])
             (if uniq <? List.length urls
              then [nat_to_string (List.length urls - uniq) ++ " duplicate URL(s) found."] else []))
      else [] in
    let index_issues :=
      match fmt, children with
      | FIndex, [] => ["Sitemap index contains no child sitemaps."]
      | _, _ => []
      end in
    let lastmod_issues :=
      match lastmods, fmt with
      | [], FXml =>
          if 0 <? List.length urls
          then ["No <lastmod> dates found. Adding them helps search engines prioritize crawling."]
          else []
      | _, _ => []
      end in
    let urlCount := match fmt with FIndex => List.length children | _ => List.length urls end in
    {| url := sitemapUrl; found := true; format := fmt; urlCount := urlCount;
       sampleUrls := firstn 10 urls;
       lastModDates := firstn 5 (dedup [] lastmods);
       childSitemaps := children;
       issues := app list_issues (app index_issues lastmod_issues);
       summary := match fmt with
                  | FIndex => "Sitemap index with " ++ nat_to_string (List.length children)
                              ++ " child sitemap(s)."
                  | _ => format_upper fmt ++ " sitemap with " ++ nat_to_string (List.length urls)
                         ++ " URL(s)."
                  end |}.

End Sitemap.

Module Shape.
Import KDefs.

(** Whitespace in [s] is only the space character. *)
Definition only_space_ws (s : string) : bool :=
  char_all (fun c => negb (is_space c) || Ascii.eqb c " ") s.

(** No two adjacent whitespace characters. *)
Fixpoint no_double_ws (s : string) : bool :=
  match s with
  | String a ((String b _) as t) => negb (is_space a && is_space b) && no_double_ws t
  | _ => true
  end.

Definition first_space (s : string) : bool :=
  match s with String c _ => is_space c | EmptyString => false end.

Fixpoint last_space (s : string) : bool :=
  match s with
  | EmptyString => false
  | String c EmptyString => is_space c
  | String _ s' => last_space s'
  end.

(** No quote character (single or double) in [s]. *)
Definition no_quote (s : string) : bool := char_all (fun c => negb (Html.is_quote c)) s.

End Shape.

Module MetaDefs.
Import Html MetaTags.

(** The pieces of [metaTags]: the description, the grouping loop, the
    title and description branches and the remaining issue checks. *)
Definition desc_of (html : string) : option string :=
  match find (fun t => match name t with
                       | Some n => String.eqb n "description"
                       | None => false end) (extractMetaTags html) with
  | Some t => Some (content t)
  | None => None
  end.

Definition groups_of (html : string) : Groups :=
  fold_left group_tag (extractMetaTags html) {| og := []; tw := []; oth := [] |}.

Definition title_part (title : option string) :=
  if negb (truthy title) then
    (["Missing <title> tag"], false, Some "Add a unique, descriptive title (50-60 characters)")
  else if len_opt title <? 30 then
    ([], true, Some "Title is short. Aim for 50-60 characters for better CTR.")
  else if 60 <? len_opt title then
    ([], true, Some "Title may be truncated in SERPs. Keep under 60 characters.")
  else ([], true, None).

Definition desc_part (description : option string) :=
  if negb (truthy description) then
    (["Missing meta description"], false,
     Some "Add a meta description (120-160 characters) to improve CTR.")
  else if len_opt description <? 70 then
    ([], true, Some "Description is short. Aim for 120-160 characters.")
  else if 160 <? len_opt description then
    ([], true, Some "Description may be truncated. Keep under 160 characters.")
  else ([], true, None).

Definition rest_issues (html : string) : list string :=
  let g := groups_of html in
  app (missing (og g) "og:title" "Missing og:title")
    (app (missing (og g) "og:description" "Missing og:description")
       (app (missing (og g) "og:image" "Missing og:image (no preview image for social shares)")
          (app (missing (og g) "og:url" "Missing og:url")
             (app (missing (tw g) "twitter:card" "Missing twitter:card")
                (if truthy (extractCanonical html) then [] else ["No canonical URL set"]))))).

End MetaDefs.

Module RobotsDefs.
Import Robots.

(** The lines the loop of [robotsTxt] acts on (neither empty nor comments),
    as their [(keyLower, value)] pairs. *)
Definition kept (line : string) : bool :=
  negb (String.eqb line EmptyString || starts_with "#" line).

Definition directives (text : string) : list (string * string) :=
  map directive (filter kept (map trim (split_char newline_char text))).

(** The rules the loop has built: [rules] plus [current]. *)
Definition rules_of (st : PState) : list RobotsRule :=
  match current st with Some c => app (p_rules st) [c] | None => p_rules st end.

Definition is_key (k : string) (kv : string * string) : bool := String.eqb (fst kv) k.

Definition nonempty_disallow (kv : string * string) : bool :=
  String.eqb (fst kv) "disallow" && negb (String.eqb (snd kv) EmptyString).

Definition has_current (st : PState) : bool :=
  match current st with Some _ => true | None => false end.

Definition nonempty_allow (kv : string * string) : bool :=
  String.eqb (fst kv) "allow" && negb (String.eqb (snd kv) EmptyString).

(** The directives from the first [user-agent] line on. *)
Fixpoint from_first_ua (ds : list (string * string)) : list (string * string) :=
  match ds with
  | [] => []
  | kv :: r => if is_key "user-agent" kv then ds else from_first_ua r
  end.

(** The state before the first line. *)
Definition init_state : PState := {| p_rules := []; p_sitemaps := []; current := None |}.

End RobotsDefs.

Module SitemapDefs.
Import KDefs Shape Sitemap.

(** A captured tag value: no whitespace at either end and no line
    terminator inside. *)
Definition clean_value (v : string) : bool :=
  negb (first_space v) && negb (last_space v) && char_all (fun c => negb (is_line_term c)) v.

(** The duplicate-URL issue for [k] duplicates. *)
Definition dup_message (k : nat) : string := nat_to_string k ++ " duplicate URL(s) found.".

End SitemapDefs.

(* ================================================================== *)
(** * Properties *)

(* ------------------------------------------------------------------ *)
(** ** Concrete reports *)

Module Examples.

Import KeywordDensity.

(** C3: keyword density of [the cat sat on the mat. the cat ran.] with
    target [cat]: 9 words, target count 2, density [22.22%]. *)
Theorem keywordDensity_cat_example :
  exists r,
    keywordDensity "the cat sat on the mat. the cat ran." (Some "cat") = Report r
    /\ totalWords r = 9
    /\ option_map tcount (targetKeyword r) = Some 2
    /\ option_map tdensity (targetKeyword r) = Some "22.22%".
Proof.
  eexists. split; [vm_compute; reflexivity |].
  vm_compute. repeat split.
Qed.

End Examples.

(* ------------------------------------------------------------------ *)
(** ** Heading structure *)

Module HeadingProps.

Import HeadingStructure.

Lemma long_issue_not_skip : forall h,
  filter is_skip_issue (long_issue h) = [].
Proof.
  intros h. unfold long_issue.
  destruct (70 <? String.length (text h)); reflexivity.
Qed.

Lemma flat_map_long_not_skip : forall hs,
  filter is_skip_issue (flat_map long_issue hs) = [].
Proof.
  induction hs as [| h hs IH]; [reflexivity |].
  simpl. rewrite filter_app, long_issue_not_skip, IH. reflexivity.
Qed.

(** C4: the sequence [H1, H3] gives exactly one skipped-level issue, naming
    H1 and H3; the sequence [H2, H1] gives the wrong-first-heading issue and
    no skipped-level issue. *)
Theorem headingStructure_skip_and_first : forall u t1 t2,
  filter is_skip_issue
    (issues (headingStructure u [{| level := 1; text := t1 |}; {| level := 3; text := t2 |}]))
  = ["Skipped heading level: H1 → H3 (after " ++ dq ++ slice0 40 t1 ++ dq
     ++ "). Don't skip levels."]
  /\ In "First heading is H2, not H1. Start with H1."
       (issues (headingStructure u [{| level := 2; text := t1 |}; {| level := 1; text := t2 |}]))
  /\ filter is_skip_issue
       (issues (headingStructure u [{| level := 2; text := t1 |}; {| level := 1; text := t2 |}]))
     = [].
Proof.
  intros u t1 t2. repeat split.
  - cbn [headingStructure issues]. rewrite !filter_app, flat_map_long_not_skip.
    reflexivity.
  - cbn [headingStructure issues]. simpl. auto.
  - cbn [headingStructure issues]. rewrite !filter_app, flat_map_long_not_skip.
    reflexivity.
Qed.

(** C10: with no headings the score is [3/4], the issues are the missing-H1
    and the no-headings messages, and the outline is [(no headings)]. *)
Theorem headingStructure_empty : forall u,
  score (headingStructure u []) = "3/4"
  /\ issues (headingStructure u []) =
       ["Missing H1 tag. Every page should have exactly one H1.";
        "No headings found on the page. Add headings to structure your content."]
  /\ outline (headingStructure u []) = "(no headings)".
Proof.
  intros u. repeat split; vm_compute; reflexivity.
Qed.

End HeadingProps.

(* ------------------------------------------------------------------ *)
(** ** Meta tags *)

Module MetaProps.

Import Html MetaTags Observe.

Lemma group_plain_tag : forall g t,
  plain_tag t = true -> og (group_tag g t) = og g /\ tw (group_tag g t) = tw g.
Proof.
  intros g t Ht. unfold plain_tag in Ht. unfold group_tag.
  destruct (starts_opt "og:" (property t)); [discriminate |].
  destruct (starts_opt "twitter:" (property t)); [discriminate |].
  destruct (starts_opt "twitter:" (name t)); [discriminate |].
  simpl. destruct (name t) as [n |]; [| auto].
  all: match goal with |- context [if ?b then _ else _] => destruct b end; simpl; auto.
Qed.

Lemma group_plain_tags : forall tags g,
  forallb plain_tag tags = true -> og g = [] -> tw g = [] ->
  og (fold_left group_tag tags g) = [] /\ tw (fold_left group_tag tags g) = [].
Proof.
  induction tags as [| t tags IH]; intros g Hp Hog Htw; [simpl; auto |].
  simpl in Hp |- *. apply andb_true_iff in Hp as [Ht Hp].
  destruct (group_plain_tag g t Ht) as [E1 E2].
  apply IH; [exact Hp | congruence | congruence].
Qed.

Lemma find_no_description : forall tags,
  forallb plain_tag tags = true ->
  find (fun t => match name t with
                 | Some n => String.eqb n "description"
                 | None => false end) tags = None.
Proof.
  induction tags as [| t tags IH]; intros Hp; [reflexivity |].
  simpl in Hp |- *. apply andb_true_iff in Hp as [Ht Hp].
  unfold plain_tag in Ht.
  destruct (match name t with Some n => String.eqb n "description" | None => false end).
  - rewrite !andb_false_r in Ht. discriminate.
  - apply IH, Hp.
Qed.

(** C2 (as stated, refuted): on [<title>Short</title>] the score is
    [1/8], not [3/8]; seven checks fail. *)
Lemma metaTags_short_title_score :
  score (metaTags "https://example.com/" "<title>Short</title>") = "1/8"
  /\ score (metaTags "https://example.com/" "<title>Short</title>") <> "3/8"
  /\ List.length (issues (metaTags "https://example.com/" "<title>Short</title>")) = 7.
Proof.
  vm_compute. repeat split. discriminate.
Qed.

(** C2 (amended): markup whose title is [Short] and which has no meta
    description, no Open Graph, no Twitter and no canonical tag gives
    [title.ok = true] with the short-title tip, [description.ok = false]
    with the missing-description issue, and the score [1/8]. *)
Theorem metaTags_short_title : forall u html,
  extractTitle html = Some "Short" ->
  forallb plain_tag (extractMetaTags html) = true ->
  extractCanonical html = None ->
  ok (title (metaTags u html)) = true
  /\ tip (title (metaTags u html)) = Some "Title is short. Aim for 50-60 characters for better CTR."
  /\ ok (description (metaTags u html)) = false
  /\ In "Missing meta description" (issues (metaTags u html))
  /\ issues (metaTags u html) =
       ["Missing meta description"; "Missing og:title"; "Missing og:description";
        "Missing og:image (no preview image for social shares)"; "Missing og:url";
        "Missing twitter:card"; "No canonical URL set"]
  /\ score (metaTags u html) = "1/8".
Proof.
  intros u html Ht Hp Hc.
  destruct (group_plain_tags (extractMetaTags html) {| og := []; tw := []; oth := [] |}
              Hp eq_refl eq_refl) as [Hog Htw].
  pose proof (find_no_description _ Hp) as Hd.
  unfold metaTags. rewrite Ht, Hc, Hd.
  remember (fold_left group_tag (extractMetaTags html) {| og := []; tw := []; oth := [] |}) as g.
  unfold missing. rewrite Hog, Htw.
  vm_compute. repeat split; auto 8.
Qed.

Lemma metaTags_short_title_witness :
  ok (title (metaTags "https://example.com/" "<title>Short</title>")) = true
  /\ score (metaTags "https://example.com/" "<title>Short</title>") = "1/8".
Proof.
  destruct (metaTags_short_title "https://example.com/" "<title>Short</title>")
    as (H1 & _ & _ & _ & _ & H6);
    [vm_compute; reflexivity | vm_compute; reflexivity | vm_compute; reflexivity |].
  split; [exact H1 | exact H6].
Defined.

End MetaProps.

(* ------------------------------------------------------------------ *)
(** ** Target-phrase counting *)

Module PhraseCount.

Import KeywordDensity Observe.

Lemma drop_drop : forall a b s, drop a (drop b s) = drop (b + a) s.
Proof.
  intros a b. induction b as [| b IH]; intros s; [reflexivity |].
  destruct s; simpl; [destruct a; reflexivity | apply IH].
Qed.

Lemma drop_length : forall n s, String.length (drop n s) = String.length s - n.
Proof.
  induction n as [| n IH]; intros s; [simpl; lia |].
  destruct s; simpl; [reflexivity | apply IH].
Qed.

Lemma starts_with_length : forall t s,
  starts_with t s = true -> String.length t <= String.length s.
Proof.
  induction t as [| a t IH]; intros s H; simpl; [lia |].
  destruct s as [| b s]; [discriminate |].
  simpl in H. apply andb_true_iff in H as [_ H]. simpl. apply IH in H. lia.
Qed.

(** A cooling-down scan equals a plain scan of the remaining suffix. *)
Lemma greedy_cool : forall t s k, greedy_aux t k s = greedy_aux t 0 (drop k s).
Proof.
  intros t. induction s as [| c s IH]; intros k.
  - destruct k; reflexivity.
  - destruct k as [| k]; [reflexivity |]. simpl. apply IH.
Qed.

(** What [indexOf] finds, seen from the scan. *)
Lemma index_from_some : forall t s k p,
  index_from t s k = Some p ->
  k <= p /\ starts_with t (drop (p - k) s) = true
  /\ greedy_aux t 0 s = greedy_aux t 0 (drop (p - k) s).
Proof.
  intros t. induction s as [| c s IH]; intros k p H; simpl in H.
  - destruct (starts_with t EmptyString) eqn:E; [| discriminate].
    injection H as <-. rewrite Nat.sub_diag. auto.
  - destruct (starts_with t (String c s)) eqn:E.
    + injection H as <-. rewrite Nat.sub_diag. auto.
    + apply IH in H as (Hle & Hs & Hg).
      replace (p - k) with (S (p - S k)) by lia. simpl.
      rewrite E. split; [lia | split; assumption].
Qed.

Lemma index_from_none : forall t s k,
  t <> EmptyString -> index_from t s k = None -> greedy_aux t 0 s = 0.
Proof.
  intros t. induction s as [| c s IH]; intros k Ht H; [reflexivity |].
  simpl in H |- *. destruct (starts_with t (String c s)); [discriminate |].
  eapply IH; eauto.
Qed.

(** The [indexOf] loop with enough fuel is the non-overlapping scan. *)
Lemma phrase_loop_greedy : forall s t fuel idx,
  t <> EmptyString -> idx <= String.length s -> String.length s - idx < fuel ->
  phrase_loop fuel s t idx = greedy_aux t 0 (drop idx s).
Proof.
  intros s t fuel. induction fuel as [| f IH]; intros idx Ht Hidx Hf; [lia |].
  simpl. unfold indexOf. rewrite Nat.min_l by exact Hidx.
  destruct (index_from t (drop idx s) idx) as [p |] eqn:E.
  - apply index_from_some in E as (Hle & Hs & Hg).
    rewrite drop_drop in Hs, Hg. replace (idx + (p - idx)) with p in Hs, Hg by lia.
    rewrite Hg.
    pose proof (starts_with_length _ _ Hs) as Hlen. rewrite drop_length in Hlen.
    destruct t as [| a t']; [congruence |].
    destruct (drop p s) as [| c r] eqn:Ed; [simpl in Hs; discriminate |].
    cbn [greedy_aux]. rewrite Hs. f_equal.
    replace (String.length (String a t') - 1) with (String.length t') by (simpl; lia).
    rewrite greedy_cool.
    assert (Hr : drop (String.length t') r = drop (p + String.length (String a t')) s).
    { simpl. rewrite <- drop_drop with (a := S (String.length t')), Ed. reflexivity. }
    rewrite Hr. apply IH; [congruence | |].
    + simpl in Hlen |- *. lia.
    + simpl in Hlen |- *. lia.
  - rewrite (index_from_none _ _ _ Ht E). reflexivity.
Qed.

Lemma greedy_le_overlapping : forall t s k, greedy_aux t k s <= count_overlapping t s.
Proof.
  intros t. induction s as [| c s IH]; intros k; [simpl; lia |].
  cbn [greedy_aux count_overlapping].
  destruct k as [| k]; [destruct (starts_with t (String c s)) |].
  - pose proof (IH (String.length t - 1)). lia.
  - pose proof (IH 0). lia.
  - pose proof (IH k). lia.
Qed.

Lemma multi_token_nonempty : forall t,
  List.length (split_ws t) <> 1 -> t <> EmptyString.
Proof. intros t H E. subst t. apply H. reflexivity. Qed.

(** C1 (as stated, refuted): for the text [cat cat cat] and the phrase
    [cat cat] the phrase occurs twice, overlapping, in the joined token
    stream, but the reported target count is 1. *)
Lemma keywordDensity_phrase_overlap_counterexample :
  target_count_of (keywordDensity "cat cat cat" (Some "cat cat")) = Some 1
  /\ count_overlapping (trim (toLowerCase "cat cat"))
       (String.concat " " (tokenize "cat cat cat")) = 2
  /\ target_count_of (keywordDensity "cat cat cat" (Some "cat cat"))
     <> Some (count_overlapping (trim (toLowerCase "cat cat"))
                (String.concat " " (tokenize "cat cat cat"))).
Proof.
  vm_compute. split; [reflexivity | split; [reflexivity | discriminate]].
Qed.

(** C1 (amended): for a multi-token target phrase the target count is the
    number of non-overlapping occurrences of the lowercased, trimmed phrase
    in the space-joined token stream, found left to right with the search
    resuming after each match; it never exceeds the number of possibly
    overlapping occurrences. *)
Theorem keywordDensity_phrase_count : forall text k,
  k <> EmptyString ->
  tokenize text <> [] ->
  List.length (split_ws (trim (toLowerCase k))) <> 1 ->
  target_count_of (keywordDensity text (Some k))
    = Some (count_nonoverlapping (trim (toLowerCase k)) (String.concat " " (tokenize text)))
  /\ count_nonoverlapping (trim (toLowerCase k)) (String.concat " " (tokenize text))
     <= count_overlapping (trim (toLowerCase k)) (String.concat " " (tokenize text)).
Proof.
  intros text k Hk Hw Hm. split; [| apply greedy_le_overlapping].
  pose proof (multi_token_nonempty _ Hm) as Ht.
  unfold keywordDensity.
  destruct (List.length (tokenize text) =? 0) eqn:E0.
  { apply Nat.eqb_eq in E0. destruct (tokenize text); [congruence | discriminate]. }
  destruct (String.eqb k EmptyString) eqn:Ek.
  { apply String.eqb_eq in Ek. congruence. }
  simpl. unfold target_count.
  destruct (List.length (split_ws (trim (toLowerCase k))) =? 1) eqn:E1.
  { apply Nat.eqb_eq in E1. contradiction. }
  unfold count_phrase, count_nonoverlapping.
  rewrite phrase_loop_greedy by (auto; lia). reflexivity.
Qed.

Lemma keywordDensity_phrase_count_witness :
  target_count_of (keywordDensity "cat cat cat" (Some "cat cat"))
    = Some (count_nonoverlapping "cat cat" "cat cat cat").
Proof.
  destruct (keywordDensity_phrase_count "cat cat cat" "cat cat") as [H _].
  - discriminate.
  - vm_compute. discriminate.
  - vm_compute. discriminate.
  - exact H.
Defined.

End PhraseCount.

(* ------------------------------------------------------------------ *)
(** ** Readability *)

Module ReadabilityProps.

Import Readability.

Lemma div_of_nat_fin : forall a b, b <> 0 ->
  div (of_nat a) (of_nat b) = Fin (inject_Z (Z.of_nat a) / inject_Z (Z.of_nat b)).
Proof.
  intros a b Hb. unfold div, of_nat.
  destruct (Qeq_bool (inject_Z (Z.of_nat b)) 0) eqn:E; [| reflexivity].
  apply Qeq_bool_iff in E. unfold Qeq in E. simpl in E. lia.
Qed.

Lemma round_to_fin : forall k x, ~ (k == 0)%Q -> exists y, round_to k (Fin x) = Fin y.
Proof.
  intros k x Hk. unfold round_to, round, mul, div.
  destruct (Qeq_bool k 0) eqn:E.
  - apply Qeq_bool_iff in E. contradiction.
  - eexists. reflexivity.
Qed.

Lemma Qle_bool_false : forall a b, Qle_bool a b = false -> (b < a)%Q.
Proof.
  intros a b H. apply Qnot_le_lt. intros Hle. apply Qle_bool_iff in Hle. congruence.
Qed.

Lemma clampEase_range : forall x,
  exists y, clampEase (Fin x) = Fin y /\ (0 <= y /\ y <= 100)%Q.
Proof.
  intros x. destruct (round_to_fin 10 x) as [z Hz]; [discriminate |].
  unfold clampEase. rewrite Hz. unfold min, max, lt. simpl.
  destruct (Qle_bool 100 z) eqn:E1; simpl.
  - exists 100%Q. split; [reflexivity | lra].
  - apply Qle_bool_false in E1.
    destruct (Qle_bool z 0) eqn:E2; simpl.
    + exists 0%Q. split; [reflexivity | lra].
    + apply Qle_bool_false in E2.
      exists z. split; [reflexivity | lra].
Qed.

Lemma clampGrade_range : forall x,
  exists y, clampGrade (Fin x) = Fin y /\ (0 <= y)%Q.
Proof.
  intros x. destruct (round_to_fin 10 x) as [z Hz]; [discriminate |].
  unfold clampGrade. rewrite Hz. unfold max, lt. simpl.
  destruct (Qle_bool z 0) eqn:E; simpl.
  - exists 0%Q. split; [reflexivity | lra].
  - apply Qle_bool_false in E.
    exists z. split; [reflexivity | lra].
Qed.

Lemma fleschEase_fin : forall a b, exists x, fleschEase_of (Fin a) (Fin b) = Fin x.
Proof. intros a b. eexists. reflexivity. Qed.

Lemma fkGrade_fin : forall a b, exists x, fkGrade_of (Fin a) (Fin b) = Fin x.
Proof. intros a b. eexists. reflexivity. Qed.

(** A text of at least ten words gets a report whose numbers are computed
    from finite averages. *)
Lemma readability_report_view : forall text,
  10 <= List.length (splitWords text) ->
  exists r, readability text = Report r /\
  exists a b c,
    score (fleschReadingEase r) = clampEase (fleschEase_of (Fin a) (Fin b))
    /\ score (fleschKincaidGrade r) = clampGrade (fkGrade_of (Fin a) (Fin b))
    /\ avgWordsPerSentence (stats r) = round_to 10 (Fin a)
    /\ avgSyllablesPerWord (stats r) = round_to 100 (Fin b)
    /\ readingTimeMinutes (stats r) = round_to 10 (Fin c).
Proof.
  intros text Hw. unfold readability. cbv zeta.
  destruct (List.length (splitWords text) <? 10) eqn:E.
  { apply Nat.ltb_lt in E. lia. }
  eexists. split; [reflexivity |]. cbn [score fleschReadingEase fleschKincaidGrade stats
    avgWordsPerSentence avgSyllablesPerWord readingTimeMinutes].
  rewrite !div_of_nat_fin by lia.
  do 3 eexists. repeat split; reflexivity.
Qed.

(** C5: the too-short error is returned exactly when the text has fewer
    than 10 words; ten one-syllable words in two sentences get a report. *)
Theorem readability_too_short_iff :
  (forall text,
     (exists m, readability text = Error m) <-> List.length (splitWords text) < 10)
  /\ List.length (splitWords "The cat sat on a mat. The dog ran far.") = 10
  /\ List.length (splitSentences "The cat sat on a mat. The dog ran far.") = 2
  /\ forallb (fun w => countSyllables w =? 1)
       (splitWords "The cat sat on a mat. The dog ran far.") = true
  /\ (exists r, readability "The cat sat on a mat. The dog ran far." = Report r).
Proof.
  split; [| vm_compute; repeat split; eexists; reflexivity].
  intros text. split.
  - intros [m Hm]. destruct (Nat.lt_ge_cases (List.length (splitWords text)) 10) as [Hl | Hl];
      [exact Hl |].
    destruct (readability_report_view text Hl) as [r [Hr _]]. congruence.
  - intros Hl. unfold readability. cbv zeta.
    apply Nat.ltb_lt in Hl. rewrite Hl. eexists. reflexivity.
Qed.

(** C7: for a text of at least 10 words the Flesch Reading Ease score lies
    in [0, 100] and the Flesch-Kincaid grade is at least 0. *)
Theorem readability_scores_bounded : forall text,
  10 <= List.length (splitWords text) ->
  exists r, readability text = Report r
  /\ (exists q, score (fleschReadingEase r) = Fin q /\ (0 <= q /\ q <= 100)%Q)
  /\ (exists q, score (fleschKincaidGrade r) = Fin q /\ (0 <= q)%Q).
Proof.
  intros text Hw.
  destruct (readability_report_view text Hw) as (r & Hr & a & b & c & He & Hg & _).
  exists r. split; [exact Hr |]. rewrite He, Hg.
  destruct (fleschEase_fin a b) as [x Hx]. destruct (fkGrade_fin a b) as [y Hy].
  rewrite Hx, Hy. split; [apply clampEase_range | apply clampGrade_range].
Qed.

Lemma readability_scores_bounded_witness :
  exists r, readability "The cat sat on a mat. The dog ran far." = Report r
  /\ (exists q, score (fleschReadingEase r) = Fin q /\ (0 <= q /\ q <= 100)%Q)
  /\ (exists q, score (fleschKincaidGrade r) = Fin q /\ (0 <= q)%Q).
Proof.
  apply readability_scores_bounded. vm_compute. lia.
Defined.

End ReadabilityProps.

(* ------------------------------------------------------------------ *)
(** ** Keyword density: top lists *)

Module KeywordProps.

Import KeywordDensity Observe.

Lemma set_keys_ok : forall P m k v, keys_ok P m -> P k -> keys_ok P (JSMap.set m k v).
Proof.
  intros P m k v. induction m as [| [k' v'] m IH]; intros Hm Hk [a b] Hin; simpl in Hin.
  - destruct Hin as [Heq | []]. injection Heq as <- <-. exact Hk.
  - destruct (String.eqb k k') eqn:E; destruct Hin as [Heq | Hin].
    + injection Heq as <- <-. apply (Hm (k', v')). left. reflexivity.
    + apply (Hm (a, b)). right. exact Hin.
    + injection Heq as <- <-. apply (Hm (k', v')). left. reflexivity.
    + apply IH; [intros kv Hkv; apply Hm; right; exact Hkv | exact Hk | exact Hin].
Qed.

Lemma fold_keys_ok : forall (P : string -> Prop) (f : JSMap.t -> string -> JSMap.t) l m,
  (forall m x, keys_ok P m -> keys_ok P (f m x)) ->
  keys_ok P m -> keys_ok P (fold_left f l m).
Proof.
  intros P f l. induction l as [| x l IH]; intros m Hf Hm; simpl; auto.
Qed.

Lemma word_counts_no_stop : forall words,
  keys_ok (fun k => is_stop k = false) (fold_left count_word words []).
Proof.
  intros words. apply fold_keys_ok; [| intros kv []].
  intros m x Hm. unfold count_word. destruct (is_stop x) eqn:E; [exact Hm |].
  apply set_keys_ok; assumption.
Qed.

Lemma existsb_false_forallb : forall (f : string -> bool) l,
  existsb f l = false -> forallb (fun w => negb (f w)) l = true.
Proof.
  intros f. induction l as [| x l IH]; intros H; [reflexivity |].
  simpl in H |- *. apply orb_false_iff in H as [H1 H2]. rewrite H1, IH; auto.
Qed.

Lemma ngrams_no_stop : forall words n,
  keys_ok (fun k => forallb (fun w => negb (is_stop w)) (split_char " "%char k) = true)
    (getNgrams words n).
Proof.
  intros words n. apply fold_keys_ok; [| intros kv []].
  intros m x Hm. unfold count_gram.
  destruct (existsb is_stop (split_char " "%char x)) eqn:E; [exact Hm |].
  apply set_keys_ok; [exact Hm | apply existsb_false_forallb, E].
Qed.

Lemma insert_desc_in : forall x y l, In y (insert_desc x l) -> y = x \/ In y l.
Proof.
  intros x y. induction l as [| z l IH]; simpl; intros H.
  - destruct H as [H | []]. auto.
  - destruct (snd x <? snd z); simpl in H.
    + destruct H as [H | H]; [auto |]. destruct (IH H); auto.
    + destruct H as [H | H]; auto.
Qed.

Lemma sort_desc_in : forall y l, In y (sort_desc l) -> In y l.
Proof.
  intros y. induction l as [| x l IH]; simpl; [auto |].
  intros H. apply insert_desc_in in H as [H | H]; auto.
Qed.

Lemma firstn_in : forall {A : Type} n (l : list A) x, In x (firstn n l) -> In x l.
Proof.
  intros A n l x H. rewrite <- (firstn_skipn n l). apply in_or_app. left. exact H.
Qed.

(** An entry of a top list is a key of the map it was taken from, with its
    count and the density of that count. *)
Lemma topN_in : forall counts n total e,
  In e (topN counts n total) ->
  In (key e, count e) counts /\ dens e = density (count e) total.
Proof.
  intros counts n total e H. unfold topN in H.
  apply in_map_iff in H as [[k c] [<- Hin]].
  simpl. split; [| reflexivity].
  apply sort_desc_in, (firstn_in n). exact Hin.
Qed.

Lemma topN_keys : forall (P : string -> Prop) counts n total,
  keys_ok P counts -> Forall (fun e => P (key e)) (topN counts n total).
Proof.
  intros P counts n total Hk. apply Forall_forall. intros e He.
  apply topN_in in He as [Hin _]. apply (Hk _ Hin).
Qed.

Lemma keywordDensity_report : forall text k r,
  keywordDensity text k = Report r ->
  tokenize text <> []
  /\ topSingleWords r = topN (fold_left count_word (tokenize text) []) 15 (List.length (tokenize text))
  /\ topBigrams r = topN (getNgrams (tokenize text) 2) 10 (List.length (tokenize text))
  /\ topTrigrams r = topN (getNgrams (tokenize text) 3) 10 (List.length (tokenize text))
  /\ (forall t, targetKeyword r = Some t ->
        exists c, tdensity t = density c (List.length (tokenize text))).
Proof.
  intros text k r H. unfold keywordDensity in H.
  destruct (List.length (tokenize text) =? 0) eqn:E0; [discriminate |].
  injection H as <-. simpl.
  repeat split.
  - intros Hn. rewrite Hn in E0. discriminate.
  - intros t Ht. destruct k as [kw |]; [| discriminate].
    destruct (String.eqb kw EmptyString); [discriminate |].
    injection Ht as <-. eexists. reflexivity.
Qed.

(** C6: no entry of the single-word list is a stop word, and no member
    token of a phrase of the bigram or trigram list is a stop word. *)
Theorem keywordDensity_top_no_stop_words : forall text k r,
  keywordDensity text k = Report r ->
  Forall (fun e => is_stop (key e) = false) (topSingleWords r)
  /\ Forall (fun e => forallb (fun w => negb (is_stop w)) (split_char " "%char (key e)) = true)
       (topBigrams r ++ topTrigrams r).
Proof.
  intros text k r H.
  destruct (keywordDensity_report text k r H) as (_ & H1 & H2 & H3 & _).
  rewrite H1, H2, H3. split.
  - apply (topN_keys (fun w => is_stop w = false)), word_counts_no_stop.
  - apply Forall_app. split;
      apply (topN_keys (fun g => forallb (fun w => negb (is_stop w)) (split_char " "%char g) = true)),
        ngrams_no_stop.
Qed.

Lemma keywordDensity_top_no_stop_words_witness :
  exists r, keywordDensity "the big data and big data tools" None = Report r
  /\ Forall (fun e => is_stop (key e) = false) (topSingleWords r).
Proof.
  eexists. split; [vm_compute; reflexivity |].
  eapply proj1. apply (keywordDensity_top_no_stop_words "the big data and big data tools" None).
  vm_compute. reflexivity.
Defined.

End KeywordProps.

(* ------------------------------------------------------------------ *)
(** ** Division guards *)

Module GuardProps.

Import Observe.

Lemma of_nat_nonneg : forall n, (0 <= inject_Z (Z.of_nat n))%Q.
Proof. intros n. unfold Qle. simpl. lia. Qed.

Lemma density_finite : forall c total, total <> 0 ->
  finite_density (KeywordDensity.density c total).
Proof.
  intros c total Ht. unfold KeywordDensity.density, KeywordDensity.density_value.
  rewrite ReadabilityProps.div_of_nat_fin by exact Ht.
  eexists. split; [| reflexivity].
  apply Qmult_le_0_compat; [| apply of_nat_nonneg].
  unfold Qdiv. apply Qmult_le_0_compat; [apply of_nat_nonneg |].
  apply Qinv_le_0_compat, of_nat_nonneg.
Qed.

Lemma round_to_finite : forall k x, ~ (k == 0)%Q -> is_finite (Readability.round_to k (Fin x)).
Proof.
  intros k x Hk. destruct (ReadabilityProps.round_to_fin k x Hk) as [y Hy].
  exists y. exact Hy.
Qed.

(** C8: an empty token stream gives the keyword-density error and a text
    without words gives the readability error, before any division; in
    every report each density comes from a finite number and each numeric
    field of a readability report is finite (never NaN or an infinity). *)
Theorem analysers_guard_division :
  (forall text k, KeywordDensity.tokenize text = [] ->
     KeywordDensity.keywordDensity text k
     = KeywordDensity.Error "No words found in the provided text.")
  /\ (forall text, Readability.splitWords text = [] ->
        Readability.readability text
        = Readability.Error "Text too short for meaningful analysis. Provide at least 10 words.")
  /\ (forall text k r, KeywordDensity.keywordDensity text k = KeywordDensity.Report r ->
        Forall (fun e => finite_density (KeywordDensity.dens e))
          (KeywordDensity.topSingleWords r ++ KeywordDensity.topBigrams r
           ++ KeywordDensity.topTrigrams r)
        /\ (forall t, KeywordDensity.targetKeyword r = Some t ->
              finite_density (KeywordDensity.tdensity t)))
  /\ (forall text r, Readability.readability text = Readability.Report r ->
        is_finite (Readability.score (Readability.fleschReadingEase r))
        /\ is_finite (Readability.score (Readability.fleschKincaidGrade r))
        /\ is_finite (Readability.avgWordsPerSentence (Readability.stats r))
        /\ is_finite (Readability.avgSyllablesPerWord (Readability.stats r))
        /\ is_finite (Readability.readingTimeMinutes (Readability.stats r))).
Proof.
  split; [| split; [| split]].
  - intros text k H. unfold KeywordDensity.keywordDensity. rewrite H. reflexivity.
  - intros text H. unfold Readability.readability. cbv zeta. rewrite H. reflexivity.
  - intros text k r H.
    destruct (KeywordProps.keywordDensity_report text k r H) as (Hne & H1 & H2 & H3 & Ht).
    assert (Hlen : List.length (KeywordDensity.tokenize text) <> 0).
    { destruct (KeywordDensity.tokenize text); [congruence | discriminate]. }
    split.
    + apply Forall_forall. intros e He.
      rewrite H1, H2, H3 in He. apply in_app_or in He as [He | He];
        [| apply in_app_or in He as [He | He]];
        apply KeywordProps.topN_in in He as [_ ->]; apply density_finite, Hlen.
    + intros t Hs. destruct (Ht t Hs) as [c ->]. apply density_finite, Hlen.
  - intros text r H.
    assert (Hw : 10 <= List.length (Readability.splitWords text)).
    { destruct (Nat.lt_ge_cases (List.length (Readability.splitWords text)) 10) as [Hl | Hl];
        [| exact Hl].
      unfold Readability.readability in H. cbv zeta in H.
      apply Nat.ltb_lt in Hl. rewrite Hl in H. discriminate. }
    destruct (ReadabilityProps.readability_report_view text Hw)
      as (r' & Hr & a & b & c & He & Hg & Ha & Hb & Hc).
    rewrite H in Hr. injection Hr as <-.
    rewrite He, Hg, Ha, Hb, Hc.
    destruct (ReadabilityProps.fleschEase_fin a b) as [x Hx].
    destruct (ReadabilityProps.fkGrade_fin a b) as [y Hy]. rewrite Hx, Hy.
    destruct (ReadabilityProps.clampEase_range x) as (x' & Hx' & _).
    destruct (ReadabilityProps.clampGrade_range y) as (y' & Hy' & _).
    rewrite Hx', Hy'.
    split; [eexists; reflexivity |]. split; [eexists; reflexivity |].
    split; [| split]; apply round_to_finite; discriminate.
Qed.

Lemma analysers_guard_division_witness :
  KeywordDensity.keywordDensity "?!" None
    = KeywordDensity.Error "No words found in the provided text."
  /\ Readability.readability "..."
     = Readability.Error "Text too short for meaningful analysis. Provide at least 10 words."
  /\ Forall (fun e => finite_density (KeywordDensity.dens e))
       (match KeywordDensity.keywordDensity "big data tools" None with
        | KeywordDensity.Report r => KeywordDensity.topSingleWords r | _ => [] end)
  /\ (match Readability.readability "The cat sat on a mat. The dog ran far." with
      | Readability.Report r => is_finite (Readability.score (Readability.fleschReadingEase r))
      | Readability.Error _ => False end).
Proof.
  destruct analysers_guard_division as (H1 & H2 & H3 & H4).
  split; [apply H1; vm_compute; reflexivity |].
  split; [apply H2; vm_compute; reflexivity |].
  split.
  - destruct (KeywordDensity.keywordDensity "big data tools" None) as [m | r] eqn:E;
      [constructor |].
    destruct (H3 _ _ _ E) as [H _]. apply Forall_app in H as [H _]. exact H.
  - destruct (Readability.readability "The cat sat on a mat. The dog ran far.") as [m | r] eqn:E.
    + vm_compute in E. discriminate.
    + apply (H4 _ _ E).
Defined.

End GuardProps.

(* ------------------------------------------------------------------ *)
(** ** Sessions *)

Module SessionProps.

Import Session.

Lemma run_state : forall cs st, snd (run st cs) = st.
Proof.
  induction cs as [| c cs IH]; intros st; [reflexivity |].
  destruct c; simpl; specialize (IH st);
    destruct (run st cs); simpl in *; exact IH.
Qed.

Lemma run_app : forall cs c st,
  fst (run st (cs ++ [c])%list) = (fst (run st cs) ++ [fst (step st c)])%list.
Proof.
  induction cs as [| c0 cs IH]; intros c st.
  - simpl. destruct c; reflexivity.
  - simpl. destruct c0; simpl;
      specialize (IH c st); destruct (run st (cs ++ [c])%list), (run st cs);
      simpl in *; rewrite IH; reflexivity.
Qed.

(** C9: the output of a call does not depend on the calls made before it,
    and the same call made twice in a row gives the same output twice. *)
Theorem session_deterministic : forall pre1 pre2 c,
  last_output (pre1 ++ [c])%list = last_output (pre2 ++ [c])%list
  /\ last_output (pre1 ++ [c])%list = Some (fst (step init c))
  /\ fst (run init [c; c]) = [fst (step init c); fst (step init c)].
Proof.
  intros pre1 pre2 c.
  assert (Hl : forall pre, last_output (pre ++ [c])%list = Some (fst (step init c))).
  { intros pre. unfold last_output, Html.last_opt. rewrite run_app, rev_app_distr.
    reflexivity. }
  rewrite !Hl. repeat split. destruct c; reflexivity.
Qed.

End SessionProps.

(* ------------------------------------------------------------------ *)
(** ** Further properties *)

Module KeywordExtra.
Import KeywordDensity KDefs.

Lemma char_all_impl : forall (f g : ascii -> bool) s,
  (forall c, f c = true -> g c = true) -> char_all f s = true -> char_all g s = true.
Proof.
  intros f g s Hfg. induction s as [| c s IH]; simpl; [auto |].
  intros H. apply andb_true_iff in H as [H1 H2]. rewrite (Hfg c H1), (IH H2). reflexivity.
Qed.

Lemma replace_not_chars : forall keep s,
  keep " "%char = true -> char_all keep (replace_not keep s) = true.
Proof.
  intros keep s Hsp. unfold replace_not. induction s as [| c s IH]; simpl; [reflexivity |].
  rewrite IH. destruct (keep c) eqn:E; rewrite ?E, ?Hsp; reflexivity.
Qed.

Lemma cons_head_chars : forall (f : ascii -> bool) c ps,
  f c = true -> Forall (fun w => char_all f w = true) ps ->
  Forall (fun w => char_all f w = true) (cons_head c ps).
Proof.
  intros f c ps Hc Hps. destruct ps as [| w ps]; simpl.
  - constructor; [simpl; rewrite Hc; reflexivity | constructor].
  - inversion Hps; subst. constructor; [simpl; rewrite Hc; assumption | assumption].
Qed.

Lemma split_runs_chars : forall (p q : ascii -> bool) s prev,
  char_all q s = true ->
  Forall (fun w => char_all (fun c => q c && negb (p c)) w = true) (split_runs_aux p prev s).
Proof.
  intros p q s. induction s as [| c s IH]; intros prev Hs; simpl.
  - constructor; [reflexivity | constructor].
  - simpl in Hs. apply andb_true_iff in Hs as [Hc Hs].
    destruct (p c) eqn:Ep.
    + destruct prev; [apply IH, Hs |]. constructor; [reflexivity | apply IH, Hs].
    + apply cons_head_chars; [rewrite Hc, Ep; reflexivity | apply IH, Hs].
Qed.

Lemma keep_token_char : forall c, keep_char c && negb (is_space c) = true -> token_char c = true.
Proof.
  intros c H. unfold keep_char, token_char in *.
  destruct (is_space c); rewrite ?orb_true_r in H; simpl in H; [discriminate |].
  rewrite andb_true_r, orb_false_r in H. exact H.
Qed.

(** Every token is at least two characters long and made of the characters
    [a-z], [0-9], apostrophe and hyphen only. *)
Theorem tokenize_tokens : forall text,
  Forall (fun w => 2 <= String.length w /\ char_all token_char w = true) (tokenize text).
Proof.
  intros text. unfold tokenize. apply Forall_forall. intros w Hw.
  apply filter_In in Hw as [Hw Hl]. apply Nat.ltb_lt in Hl. split; [lia |].
  unfold split_ws, split_runs in Hw.
  pose proof (split_runs_chars is_space keep_char _ false
                (replace_not_chars keep_char (toLowerCase text) eq_refl)) as H.
  rewrite Forall_forall in H. specialize (H w Hw).
  exact (char_all_impl _ _ _ keep_token_char H).
Qed.

Lemma get_set_same : forall m k v, JSMap.get (JSMap.set m k v) k = Some v.
Proof.
  intros m k v. induction m as [| [k' v'] m IH]; simpl.
  - rewrite String.eqb_refl. reflexivity.
  - destruct (String.eqb k k') eqn:E; simpl; rewrite ?E; [reflexivity | exact IH].
Qed.

Lemma get_set_other : forall m k k' v, k' <> k -> JSMap.get (JSMap.set m k v) k' = JSMap.get m k'.
Proof.
  intros m k k' v Hne. induction m as [| [a b] m IH]; simpl.
  - destruct (String.eqb k' k) eqn:E; [apply String.eqb_eq in E; congruence | reflexivity].
  - destruct (String.eqb k a) eqn:E; simpl.
    + apply String.eqb_eq in E. subst a.
      destruct (String.eqb k' k) eqn:E2; [apply String.eqb_eq in E2; congruence | reflexivity].
    + rewrite IH. reflexivity.
Qed.

Lemma mval_incr : forall m k w, mval (JSMap.incr m k) w = mval m w + (if string_dec k w then 1 else 0).
Proof.
  intros m k w. unfold JSMap.incr, mval. destruct (string_dec k w) as [<- | Hne].
  - rewrite get_set_same. destruct (JSMap.get m k); reflexivity.
  - rewrite get_set_other by congruence. lia.
Qed.

(** The counting loops [if (!skip(x)) counts.set(x, (counts.get(x) ?? 0) + 1)]
    count each non-skipped value once per occurrence. *)
Lemma mval_fold_count : forall (bad : string -> bool) l m w,
  mval (fold_left (fun m x => if bad x then m else JSMap.incr m x) l m) w
  = mval m w + (if bad w then 0 else occ w l).
Proof.
  intros bad l. induction l as [| x l IH]; intros m w; simpl.
  - destruct (bad w); lia.
  - rewrite IH. unfold occ. simpl.
    destruct (string_dec x w) as [-> | Hne].
    + destruct (bad w) eqn:E; [lia |]. rewrite mval_incr.
      destruct (string_dec w w); [| congruence]. unfold occ. lia.
    + destruct (bad x); [reflexivity |]. rewrite mval_incr.
      destruct (string_dec x w); [congruence |]. unfold occ. lia.
Qed.

Lemma mval_word_counts : forall words w,
  mval (fold_left count_word words []) w = if is_stop w then 0 else occ w words.
Proof.
  intros words w. apply (mval_fold_count is_stop words [] w).
Qed.

Lemma mval_ngrams : forall words n g,
  mval (getNgrams words n) g
  = if existsb is_stop (split_char " "%char g) then 0
    else occ g (map (String.concat " ") (windows n words)).
Proof.
  intros words n g. unfold getNgrams.
  apply (mval_fold_count (fun g => existsb is_stop (split_char " "%char g))).
Qed.

(** For a one-word target the reported count is the number of occurrences
    of the lowercased, trimmed target among the tokens, and 0 for a stop
    word. *)
Theorem keywordDensity_single_target : forall text k,
  tokenize text <> [] -> k <> EmptyString ->
  List.length (split_ws (trim (toLowerCase k))) = 1 ->
  Observe.target_count_of (keywordDensity text (Some k))
  = Some (if is_stop (trim (toLowerCase k)) then 0
          else occ (trim (toLowerCase k)) (tokenize text)).
Proof.
  intros text k Hne Hk H1. unfold keywordDensity. cbv zeta.
  destruct (List.length (tokenize text) =? 0) eqn:E0.
  { apply Nat.eqb_eq, length_zero_iff_nil in E0. contradiction. }
  destruct (String.eqb k EmptyString) eqn:Ek; [apply String.eqb_eq in Ek; contradiction |].
  simpl. unfold target_count. rewrite H1. simpl.
  rewrite <- mval_word_counts. reflexivity.
Qed.

Lemma keywordDensity_single_target_witness :
  Observe.target_count_of (keywordDensity "Cats and cats" (Some " CATS ")) = Some 2.
Proof.
  rewrite (keywordDensity_single_target "Cats and cats" " CATS ");
    [vm_compute; reflexivity | vm_compute; discriminate | discriminate | vm_compute; reflexivity].
Defined.


Lemma set_pairs_ok : forall (P : string * nat -> Prop) m k v,
  pairs_ok P m -> P (k, v) -> pairs_ok P (JSMap.set m k v).
Proof.
  intros P m k v. induction m as [| [k' v'] m IH]; intros Hm Hk [a b] Hin; simpl in Hin.
  - destruct Hin as [Heq | []]. rewrite <- Heq. exact Hk.
  - destruct (String.eqb k k') eqn:E; destruct Hin as [Heq | Hin].
    + apply String.eqb_eq in E. subst k'. rewrite <- Heq. exact Hk.
    + apply Hm. right. exact Hin.
    + rewrite <- Heq. apply Hm. left. reflexivity.
    + apply IH; [intros kv Hkv; apply Hm; right; exact Hkv | exact Hk | exact Hin].
Qed.

Lemma set_keys_nodup : forall m k v, NoDup (map fst m) -> NoDup (map fst (JSMap.set m k v)).
Proof.
  intros m k v. induction m as [| [k' v'] m IH]; intros Hm; simpl.
  - constructor; [intros [] | constructor].
  - simpl in Hm. inversion Hm as [| ? ? Hn Hd]; subst.
    destruct (String.eqb k k') eqn:E; simpl; constructor; auto.
    intros Hin. apply Hn. apply in_map_iff in Hin as [[a b] [Ha Hin]]. simpl in Ha. subst a.
    assert (Hf : forall m', In (k', b) (JSMap.set m' k v) -> k' <> k -> In k' (map fst m')).
    { induction m' as [| [c d] m' IH']; simpl; intros H Hne.
      - destruct H as [H | []]. injection H as <-. congruence.
      - destruct (String.eqb k c) eqn:Ec; simpl in H.
        + destruct H as [H | H]; [injection H as <-; auto |].
          right. apply in_map_iff. exists (k', b). auto.
        + destruct H as [H | H]; [injection H as <-; auto | right; apply IH'; auto]. }
    apply (Hf m Hin). intros ->. rewrite String.eqb_refl in E. discriminate.
Qed.

Lemma in_get : forall m k v, NoDup (map fst m) -> In (k, v) m -> JSMap.get m k = Some v.
Proof.
  intros m k v. induction m as [| [k' v'] m IH]; intros Hd Hin; [destruct Hin |].
  simpl in Hd. inversion Hd as [| ? ? Hn Hd']; subst. simpl.
  destruct Hin as [Heq | Hin].
  - injection Heq as -> ->. rewrite String.eqb_refl. reflexivity.
  - destruct (String.eqb k k') eqn:E.
    + apply String.eqb_eq in E. subst k'. exfalso. apply Hn.
      apply in_map_iff. exists (k, v). auto.
    + apply IH; assumption.
Qed.

(** The invariant of the counting loops: distinct keys, positive counts. *)
Lemma fold_count_inv : forall (bad : string -> bool) l m,
  NoDup (map fst m) -> pairs_ok (fun kv => 1 <= snd kv) m ->
  let m' := fold_left (fun m x => if bad x then m else JSMap.incr m x) l m in
  NoDup (map fst m') /\ pairs_ok (fun kv => 1 <= snd kv) m'.
Proof.
  intros bad l. induction l as [| x l IH]; intros m Hd Hp; simpl; [auto |].
  apply IH; destruct (bad x); auto.
  - apply set_keys_nodup, Hd.
  - apply set_pairs_ok; [exact Hp | simpl; lia].
Qed.

Lemma entry_count : forall (bad : string -> bool) l n total e,
  In e (topN (fold_left (fun m x => if bad x then m else JSMap.incr m x) l []) n total) ->
  count e = occ (key e) l /\ 1 <= count e.
Proof.
  intros bad l n total e He.
  destruct (fold_count_inv bad l [] (NoDup_nil _) (fun _ H => match H with end)) as [Hd Hp].
  apply KeywordProps.topN_in in He as [Hin _].
  pose proof (in_get _ _ _ Hd Hin) as Hg.
  pose proof (mval_fold_count bad l [] (key e)) as Hm.
  unfold mval in Hm at 1. rewrite Hg in Hm. simpl in Hm.
  split; [| apply (Hp _ Hin)].
  destruct (bad (key e)) eqn:Eb; [| exact Hm].
  pose proof (Hp _ Hin). simpl in *. lia.
Qed.

(** The windows of the loop [for (i = 0; i <= words.length - n; i++)]. *)
Lemma windows_seq : forall n ws,
  windows n ws = map (fun i => firstn n (skipn i ws)) (seq 0 (S (List.length ws) - n)).
Proof.
  intros n ws. induction ws as [| w ws IH].
  - simpl. destruct n; reflexivity.
  - cbn [windows]. rewrite IH. cbn [List.length].
    destruct (n <=? S (List.length ws)) eqn:E.
    + apply Nat.leb_le in E. replace (S (S (List.length ws)) - n) with (S (S (List.length ws) - n)) by lia.
      cbn [seq map]. f_equal. rewrite <- seq_shift, map_map. reflexivity.
    + apply Nat.leb_gt in E. replace (S (S (List.length ws)) - n) with 0 by lia. reflexivity.
Qed.

Lemma occ_map_filter : forall (f : nat -> string) g l,
  occ g (map f l) = List.length (filter (fun i => String.eqb (f i) g) l).
Proof.
  intros f g l. unfold occ. induction l as [| i l IH]; simpl; [reflexivity |].
  destruct (string_dec (f i) g) as [E | E].
  - rewrite E, String.eqb_refl. simpl. f_equal. exact IH.
  - destruct (String.eqb (f i) g) eqn:E2; [apply String.eqb_eq in E2; congruence | exact IH].
Qed.

(** Each entry of the word list counts the occurrences of its word among
    the tokens; each entry of the bigram (trigram) list counts the positions
    [i] at which the [n] tokens from [i] on, joined by spaces, give its
    phrase.  Every count is at least 1. *)
Theorem keywordDensity_entry_counts : forall text k r,
  keywordDensity text k = Report r ->
  Forall (fun e => count e = occ (key e) (tokenize text) /\ 1 <= count e) (topSingleWords r)
  /\ (forall n, n = 2 \/ n = 3 ->
      Forall (fun e =>
        count e = List.length
          (filter (fun i => String.eqb (String.concat " " (firstn n (skipn i (tokenize text)))) (key e))
             (seq 0 (S (List.length (tokenize text)) - n)))
        /\ 1 <= count e)
      (if n =? 2 then topBigrams r else topTrigrams r)).
Proof.
  intros text k r H.
  destruct (KeywordProps.keywordDensity_report text k r H) as (_ & H1 & H2 & H3 & _).
  split.
  - rewrite H1. apply Forall_forall. intros e He.
    exact (entry_count is_stop _ 15 _ e He).
  - intros n Hn. apply Forall_forall. intros e He.
    assert (He' : In e (topN (getNgrams (tokenize text) n) 10 (List.length (tokenize text)))).
    { destruct Hn as [-> | ->]; simpl in He; [rewrite <- H2 | rewrite <- H3]; exact He. }
    unfold getNgrams in He'. destruct (entry_count _ _ 10 _ e He') as [Hc Hpos].
    split; [| exact Hpos]. rewrite Hc, windows_seq, map_map, occ_map_filter. reflexivity.
Qed.

Lemma keywordDensity_entry_counts_witness :
  exists r, keywordDensity "big data big data tools" None = Report r
  /\ Forall (fun e => count e = occ (key e) (tokenize "big data big data tools") /\ 1 <= count e)
       (topSingleWords r).
Proof.
  eexists. split; [vm_compute; reflexivity |].
  eapply proj1. apply (keywordDensity_entry_counts "big data big data tools" None).
  vm_compute. reflexivity.
Defined.


Lemma desc_cons : forall a l, desc (a :: l) <-> head_le a l /\ desc l.
Proof. intros a [| b l]; simpl; tauto. Qed.

Lemma insert_desc_head : forall x l b,
  snd x <= b -> head_le b (map snd l) -> head_le b (map snd (insert_desc x l)).
Proof.
  intros x [| y l] b Hx Hl; simpl in *; [exact Hx |].
  destruct (snd x <? snd y); simpl; assumption.
Qed.

Lemma insert_desc_sorted : forall x l, desc (map snd l) -> desc (map snd (insert_desc x l)).
Proof.
  intros x. induction l as [| y l IH]; intros Hl; [simpl; exact I |].
  cbn [insert_desc]. destruct (snd x <? snd y) eqn:E.
  - apply Nat.ltb_lt in E. cbn [map] in Hl |- *. apply desc_cons in Hl as [Hh Hd].
    apply desc_cons. split; [apply insert_desc_head; [lia | exact Hh] | apply IH, Hd].
  - apply Nat.ltb_ge in E. cbn [map] in Hl |- *. apply desc_cons. split; [exact E | exact Hl].
Qed.

Lemma sort_desc_sorted : forall l, desc (map snd (sort_desc l)).
Proof.
  induction l as [| x l IH]; [exact I |]. apply insert_desc_sorted, IH.
Qed.

Lemma firstn_desc : forall n l, desc l -> desc (firstn n l).
Proof.
  induction n as [| n IH]; intros l Hl; [exact I |].
  destruct l as [| a l]; [exact I |]. cbn [firstn].
  apply desc_cons in Hl as [Hh Hd]. apply desc_cons. split; [| apply IH, Hd].
  destruct n, l; simpl in *; auto.
Qed.

Lemma topN_counts : forall counts n total,
  map count (topN counts n total) = firstn n (map snd (sort_desc counts)).
Proof.
  intros counts n total. unfold topN. rewrite map_map, <- firstn_map. f_equal.
  apply map_ext. intros [k c]. reflexivity.
Qed.

Lemma topN_sorted : forall counts n total,
  desc (map count (topN counts n total)) /\ List.length (topN counts n total) <= n.
Proof.
  intros counts n total. split.
  - rewrite topN_counts. apply firstn_desc, sort_desc_sorted.
  - unfold topN. rewrite length_map. apply firstn_le_length.
Qed.

(** The three top lists are in non-increasing order of count and hold at
    most 15, 10 and 10 entries. *)
Theorem keywordDensity_top_sorted : forall text k r,
  keywordDensity text k = Report r ->
  desc (map count (topSingleWords r)) /\ List.length (topSingleWords r) <= 15
  /\ desc (map count (topBigrams r)) /\ List.length (topBigrams r) <= 10
  /\ desc (map count (topTrigrams r)) /\ List.length (topTrigrams r) <= 10.
Proof.
  intros text k r H.
  destruct (KeywordProps.keywordDensity_report text k r H) as (_ & H1 & H2 & H3 & _).
  rewrite H1, H2, H3.
  destruct (topN_sorted (fold_left count_word (tokenize text) []) 15 (List.length (tokenize text))).
  destruct (topN_sorted (getNgrams (tokenize text) 2) 10 (List.length (tokenize text))).
  destruct (topN_sorted (getNgrams (tokenize text) 3) 10 (List.length (tokenize text))).
  repeat split; assumption.
Qed.

Lemma keywordDensity_top_sorted_witness :
  exists r, keywordDensity "tools data data big data tools" None = Report r
  /\ desc (map count (topSingleWords r)) /\ List.length (topSingleWords r) <= 15.
Proof.
  eexists. split; [vm_compute; reflexivity |].
  match goal with |- context [topSingleWords ?r] =>
    destruct (keywordDensity_top_sorted "tools data data big data tools" None r) as (A & B & _);
      [vm_compute; reflexivity |] end.
  split; [exact A | exact B].
Defined.

Lemma nodup_length : forall l : list string, List.length (nodup string_dec l) <= List.length l.
Proof.
  induction l as [| x l IH]; simpl; [lia |]. destruct (in_dec string_dec x l); simpl; lia.
Qed.

(** [uniqueWords] (the size of the token set) is between 1 and
    [totalWords], the number of tokens. *)
Theorem keywordDensity_unique_words : forall text k r,
  keywordDensity text k = Report r ->
  totalWords r = List.length (tokenize text) /\ 1 <= uniqueWords r <= totalWords r.
Proof.
  intros text k r H. unfold keywordDensity in H.
  destruct (List.length (tokenize text) =? 0) eqn:E0; [discriminate |].
  injection H as <-. simpl. split; [reflexivity |].
  split; [| apply nodup_length].
  destruct (tokenize text) as [| w ws] eqn:Et; [discriminate |].
  assert (Hin : In w (nodup string_dec (w :: ws))) by (apply nodup_In; left; reflexivity).
  destruct (nodup string_dec (w :: ws)); [destruct Hin | simpl; lia].
Qed.

Lemma keywordDensity_unique_words_witness :
  exists r, keywordDensity "data data tools" None = Report r
  /\ totalWords r = 3 /\ 1 <= uniqueWords r <= totalWords r.
Proof.
  eexists. split; [vm_compute; reflexivity |].
  match goal with |- context [totalWords ?r] =>
    destruct (keywordDensity_unique_words "data data tools" None r) as [A B];
      [vm_compute; reflexivity |] end.
  split; [exact A | exact B].
Defined.

End KeywordExtra.

Module ReadabilityExtra.
Import Readability.

Lemma countSyllables_pos : forall w, 1 <= countSyllables w.
Proof.
  intros w. unfold countSyllables. cbv zeta.
  destruct (_ <=? 3); [lia |].
  match goal with |- context [if ?c =? 0 then 1 else ?c] => destruct (c =? 0) eqn:E end;
    [lia | apply Nat.eqb_neq in E; lia].
Qed.

Lemma syllable_sum : forall words acc,
  acc + List.length words <= fold_left (fun sum w => sum + countSyllables w) words acc.
Proof.
  induction words as [| w ws IH]; intros acc; simpl; [lia |].
  pose proof (countSyllables_pos w). specialize (IH (acc + countSyllables w)). lia.
Qed.

Lemma round_to_100_ge_1 : forall x, (1 <= x)%Q ->
  exists q, round_to 100 (Fin x) = Fin q /\ (1 <= q)%Q.
Proof.
  intros x Hx. unfold round_to, round, mul, div.
  destruct (Qeq_bool 100 0) eqn:E; [discriminate |].
  eexists. split; [reflexivity |].
  apply Qle_shift_div_l; [reflexivity |].
  assert (H1 : (100 <= Qfloor (x * 100 + (1 # 2)))%Z).
  { apply Z.le_trans with (Qfloor (inject_Z 100)); [rewrite Qfloor_Z; lia |].
    apply Qfloor_resp_le. unfold inject_Z. lra. }
  rewrite Zle_Qle in H1. rewrite Qmult_1_l. exact H1.
Qed.

(** In a report every word counts at least one syllable: the syllable
    count is at least the word count (itself at least 10), the average of
    syllables per word is at least 1, and the sentence count at least 1. *)
Theorem readability_stats_bounds : forall text r,
  readability text = Report r ->
  10 <= wordCount (stats r) <= syllableCount (stats r)
  /\ 1 <= sentenceCount (stats r)
  /\ exists q, avgSyllablesPerWord (stats r) = Fin q /\ (1 <= q)%Q.
Proof.
  intros text r H. unfold readability in H. cbv zeta in H.
  destruct (List.length (splitWords text) <? 10) eqn:E; [discriminate |].
  apply Nat.ltb_ge in E. injection H as <-. cbn [stats wordCount syllableCount sentenceCount avgSyllablesPerWord].
  pose proof (syllable_sum (splitWords text) 0) as Hs.
  split; [lia |]. split; [lia |].
  destruct (Qeq_bool (inject_Z (Z.of_nat (List.length (splitWords text)))) 0) eqn:Ez.
  { apply Qeq_bool_iff in Ez. unfold Qeq in Ez. simpl in Ez. lia. }
  apply round_to_100_ge_1. apply Qle_shift_div_l.
  - unfold Qlt. simpl. lia.
  - rewrite Qmult_1_l. rewrite <- Zle_Qle. lia.
Qed.

Lemma readability_stats_bounds_witness :
  exists r, readability "The cat sat on a mat. The dog ran far." = Report r
  /\ 10 <= wordCount (stats r) <= syllableCount (stats r).
Proof.
  eexists. split; [vm_compute; reflexivity |].
  eapply proj1. apply (readability_stats_bounds "The cat sat on a mat. The dog ran far.").
  vm_compute. reflexivity.
Defined.

End ReadabilityExtra.

Module HtmlExtraProps.
Import KDefs Shape HtmlExtract KeywordExtra.

Lemma collapse_only_space : forall prev s, only_space_ws (collapse_ws prev s) = true.
Proof.
  intros prev s. revert prev. unfold only_space_ws.
  induction s as [| c s IH]; intros prev; simpl; [reflexivity |].
  destruct (is_space c) eqn:E.
  - destruct prev; [apply IH | simpl; apply IH].
  - simpl. rewrite E. apply IH.
Qed.

Lemma no_double_cons : forall c s,
  no_double_ws (String c s) = negb (is_space c && first_space s) && no_double_ws s.
Proof.
  intros c [| d s]; simpl; [rewrite andb_false_r; reflexivity | reflexivity].
Qed.

Lemma collapse_no_double : forall s prev,
  no_double_ws (collapse_ws prev s) = true /\ (prev = true -> first_space (collapse_ws prev s) = false).
Proof.
  induction s as [| c s IH]; intros prev; simpl; [auto |].
  destruct (is_space c) eqn:E.
  - destruct prev.
    + apply IH.
    + split; [| discriminate]. rewrite no_double_cons.
      destruct (IH true) as [H1 H2]. rewrite H1, H2 by reflexivity. reflexivity.
  - rewrite no_double_cons. destruct (IH false) as [H1 _]. rewrite H1, E. simpl. auto.
Qed.

(** The text returned by [stripTags] has no whitespace but the space, and
    never two whitespace characters in a row. *)
Theorem stripTags_whitespace : forall html,
  only_space_ws (stripTags html) = true /\ no_double_ws (stripTags html) = true.
Proof.
  intros html. unfold stripTags. split; [apply collapse_only_space | apply collapse_no_double].
Qed.

Lemma char_all_app : forall f a b, char_all f (a ++ b) = char_all f a && char_all f b.
Proof.
  intros f a b. induction a as [| c a IH]; simpl; [reflexivity |]. rewrite IH, andb_assoc. reflexivity.
Qed.

Lemma char_all_rev : forall f s, char_all f (rev_str s) = char_all f s.
Proof.
  intros f s. induction s as [| c s IH]; simpl; [reflexivity |].
  rewrite char_all_app, IH. simpl. rewrite andb_true_r, andb_comm. reflexivity.
Qed.

Lemma char_all_trim_start : forall f s, char_all f s = true -> char_all f (trim_start s) = true.
Proof.
  intros f s. induction s as [| c s IH]; simpl; [auto |].
  intros H. destruct (is_space c); [apply IH; apply andb_true_iff in H as [_ H]; exact H | exact H].
Qed.

Lemma char_all_trim : forall f s, char_all f s = true -> char_all f (trim s) = true.
Proof.
  intros f s H. unfold trim. rewrite char_all_rev.
  apply char_all_trim_start. rewrite char_all_rev. apply char_all_trim_start, H.
Qed.

Lemma first_space_app : forall a b,
  first_space (a ++ b) = match a with EmptyString => first_space b | _ => first_space a end.
Proof. intros [| c a] b; reflexivity. Qed.

Lemma last_space_cons : forall c s,
  last_space (String c s) = match s with EmptyString => is_space c | _ => last_space s end.
Proof. intros c [| d s]; reflexivity. Qed.

Lemma last_space_snoc : forall a c, last_space (a ++ String c EmptyString) = is_space c.
Proof.
  induction a as [| d a IH]; intros c; [reflexivity |].
  simpl (String d a ++ _). rewrite last_space_cons.
  destruct (a ++ String c EmptyString) eqn:E; [destruct a; discriminate | rewrite <- E; apply IH].
Qed.

Lemma no_double_snoc : forall a c,
  no_double_ws (a ++ String c EmptyString) = no_double_ws a && negb (last_space a && is_space c).
Proof.
  induction a as [| d a IH]; intros c; [reflexivity |].
  simpl (String d a ++ _). rewrite no_double_cons, IH, first_space_app, no_double_cons, last_space_cons.
  destruct a as [| e a]; simpl.
  - destruct (is_space d), (is_space c); reflexivity.
  - destruct (is_space d), (is_space e), (no_double_ws (String e a)), (last_space (String e a)), (is_space c);
      reflexivity.
Qed.

Lemma last_space_rev : forall s, last_space (rev_str s) = first_space s.
Proof.
  intros [| c s]; [reflexivity |]. simpl. apply last_space_snoc.
Qed.

Lemma no_double_rev : forall s, no_double_ws (rev_str s) = no_double_ws s.
Proof.
  induction s as [| c s IH]; [reflexivity |].
  simpl (rev_str _). rewrite no_double_snoc, IH, last_space_rev, no_double_cons.
  destruct (is_space c), (first_space s), (no_double_ws s); reflexivity.
Qed.

Lemma no_double_trim_start : forall s, no_double_ws s = true -> no_double_ws (trim_start s) = true.
Proof.
  induction s as [| c s IH]; cbn [trim_start]; [auto |].
  intros H. destruct (is_space c); [| exact H].
  apply IH. rewrite no_double_cons in H. apply andb_true_iff in H as [_ H]. exact H.
Qed.

Lemma no_double_trim : forall s, no_double_ws s = true -> no_double_ws (trim s) = true.
Proof.
  intros s H. unfold trim. rewrite no_double_rev.
  apply no_double_trim_start. rewrite no_double_rev. apply no_double_trim_start, H.
Qed.

Lemma heading_at_level : forall s lvl content rest,
  heading_at s = Some (lvl, content, rest) -> 1 <= lvl <= 6.
Proof.
  intros s lvl content rest H. unfold heading_at in H.
  destruct (Html.ci_starts_with "<h" s); [| discriminate].
  destruct (drop 2 s) as [| d r]; [discriminate |].
  destruct ((49 <=? nat_of_ascii d) && (nat_of_ascii d <=? 54)) eqn:E; [| discriminate].
  apply andb_true_iff in E as [E1 E2]. apply Nat.leb_le in E1, E2.
  destruct (Html.upto_gt r) as [[? r2] |]; [| discriminate].
  destruct (Html.upto_ci _ r2); [| discriminate].
  injection H as <- _ _. lia.
Qed.

(** Every extracted heading has a level between 1 and 6 and a non-empty
    text in which whitespace is single spaces. *)
Theorem extractHeadings_shape : forall html,
  Forall (fun h => 1 <= HeadingStructure.level h <= 6
                   /\ HeadingStructure.text h <> EmptyString
                   /\ only_space_ws (HeadingStructure.text h) = true
                   /\ no_double_ws (HeadingStructure.text h) = true)
    (extractHeadings html).
Proof.
  intros html. unfold extractHeadings. generalize (S (String.length html)) as fuel.
  intros fuel. revert html. induction fuel as [| f IH]; intros s; simpl; [constructor |].
  destruct (heading_at s) as [[[lvl content] rest] |] eqn:Eh.
  - destruct (String.eqb (trim (stripTags content)) EmptyString) eqn:Et; [apply IH |].
    constructor; [| apply IH]. cbn [HeadingStructure.level HeadingStructure.text].
    destruct (stripTags_whitespace content) as [W1 W2].
    split; [apply (heading_at_level _ _ _ _ Eh) |].
    split; [intros He; rewrite He in Et; discriminate |].
    split; [apply char_all_trim, W1 | apply no_double_trim, W2].
  - destruct s; [constructor | apply IH].
Qed.

End HtmlExtraProps.

Module HeadingExtraProps.
Import KDefs Shape HtmlExtract HeadingStructure.

Lemma count_level_cons : forall h hs l,
  count_level (h :: hs) l = (if level h =? l then 1 else 0) + count_level hs l.
Proof. intros h hs l. unfold count_level. simpl. destruct (level h =? l); reflexivity. Qed.

Lemma hierarchy_sum : forall hs,
  Forall (fun h => 1 <= level h <= 6) hs ->
  list_sum (map snd (hierarchy_of hs)) = List.length hs.
Proof.
  induction hs as [| h hs IH]; intros Hl; [reflexivity |].
  inversion Hl as [| ? ? Hh Hl']; subst. specialize (IH Hl').
  unfold hierarchy_of in *. simpl in IH |- *. rewrite !count_level_cons.
  assert (level h = 1 \/ level h = 2 \/ level h = 3 \/ level h = 4 \/ level h = 5 \/ level h = 6)
    as Hc by lia.
  destruct Hc as [E | [E | [E | [E | [E | E]]]]]; rewrite E; simpl; lia.
Qed.

(** For a fetched page, the six counters of [hierarchy] add up to
    [headingCount]: every extracted heading is counted once. *)
Theorem headingStructurePage_hierarchy : forall u html,
  list_sum (map snd (hierarchy (headingStructurePage u html)))
  = headingCount (headingStructurePage u html).
Proof.
  intros u html. unfold headingStructurePage, headingStructure. cbn [hierarchy headingCount].
  apply hierarchy_sum. eapply Forall_impl; [| apply HtmlExtraProps.extractHeadings_shape].
  intros h H. apply H.
Qed.

Lemma skip_issues_cons2 : forall p c l,
  skip_issues (p :: c :: l)
  = app (if level p + 1 <? level c then [skip_message p c] else []) (skip_issues (c :: l)).
Proof. reflexivity. Qed.

Lemma filter_skip_issues : forall hs, filter is_skip_issue (skip_issues hs) = skip_issues hs.
Proof.
  induction hs as [| p l IH]; [reflexivity |]. destruct l as [| c l]; [reflexivity |].
  rewrite skip_issues_cons2, filter_app, IH. destruct (level p + 1 <? level c); reflexivity.
Qed.

Lemma issues_skip : forall u hs,
  filter is_skip_issue (issues (headingStructure u hs)) = skip_issues hs.
Proof.
  intros u hs. cbn [headingStructure issues].
  rewrite !filter_app, HeadingProps.flat_map_long_not_skip.
  assert (E1 : filter is_skip_issue (h1_issues (count_level hs 1)) = []).
  { unfold h1_issues. destruct (count_level hs 1 =? 0); [reflexivity |].
    destruct (1 <? count_level hs 1); reflexivity. }
  assert (E2 : filter is_skip_issue (first_issues hs) = []).
  { destruct hs as [| h hs]; [reflexivity |]. simpl. destruct (negb (level h =? 1)); reflexivity. }
  assert (E3 : filter is_skip_issue (empty_issues hs) = []) by (destruct hs; reflexivity).
  rewrite E1, E2, E3, filter_skip_issues, app_nil_r. reflexivity.
Qed.

(** The number of skipped-level issues is the number of pairs of adjacent
    headings in which the level rises by more than one. *)
Theorem headingStructure_skip_count : forall u hs,
  List.length (filter is_skip_issue (issues (headingStructure u hs)))
  = List.length (filter (fun '(a, b) => level a + 1 <? level b) (combine hs (tl hs))).
Proof.
  intros u hs. rewrite issues_skip.
  induction hs as [| p l IH]; [reflexivity |]. destruct l as [| c l]; [reflexivity |].
  rewrite skip_issues_cons2, length_app, IH. cbn [combine tl filter].
  destruct (level p + 1 <? level c); reflexivity.
Qed.

Lemma includes_skip_message : forall p c, includes (skip_message p c) "Skipped" = true.
Proof. intros p c. reflexivity. Qed.

Lemma score_string : forall p, p <= 4 -> nat_to_string p ++ "/" ++ nat_to_string 4 = "4/4" -> p = 4.
Proof.
  intros p Hp H. destruct p as [| [| [| [| [| p]]]]]; try lia; vm_compute in H; discriminate.
Qed.

(** A perfect heading score [4/4] means exactly one H1, a first heading that
    is the H1, and no skipped level. *)
Theorem headingStructure_perfect_score : forall u hs,
  score (headingStructure u hs) = "4/4" ->
  count_level hs 1 = 1
  /\ (exists h rest, hs = h :: rest /\ level h = 1)
  /\ skip_issues hs = [].
Proof.
  intros u hs H. cbn [headingStructure score] in H.
  apply score_string in H; [| lia].
  set (iss := app (h1_issues (count_level hs 1)) _) in H.
  destruct (count_level hs 1 =? 0) eqn:E0; [lia |].
  destruct (1 <? count_level hs 1) eqn:E1; [lia |].
  destruct (existsb (fun i => includes i "Skipped") iss) eqn:E2; [lia |].
  destruct hs as [| h rest]; [discriminate |].
  destruct (negb (level h =? 1)) eqn:E3; [lia |].
  apply Nat.eqb_neq in E0. apply Nat.ltb_ge in E1.
  apply negb_false_iff, Nat.eqb_eq in E3.
  split; [lia |]. split; [exists h, rest; auto |].
  destruct (skip_issues (h :: rest)) as [| m ms] eqn:Es; [reflexivity |].
  exfalso. assert (Hin : In m iss).
  { unfold iss. apply in_or_app. right. apply in_or_app. left. try rewrite Es. left. reflexivity. }
  assert (Hm : exists p c, m = skip_message p c).
  { clear -Es. revert m ms Es. generalize (h :: rest) as l.
    induction l as [| p l IH]; intros m ms Es; [discriminate |].
    destruct l as [| c l]; [discriminate |].
    rewrite skip_issues_cons2 in Es. destruct (level p + 1 <? level c).
    - simpl in Es. injection Es as <- _. eauto.
    - apply (IH m ms Es). }
  destruct Hm as (p & c & ->).
  assert (Hx := existsb_exists (fun i => includes i "Skipped") iss).
  rewrite E2 in Hx. destruct Hx as [_ Hx]. apply (Bool.diff_false_true), Hx.
  exists (skip_message p c). split; [exact Hin | apply includes_skip_message].
Qed.

Lemma headingStructure_perfect_score_witness :
  count_level [{| level := 1; text := "Intro" |}; {| level := 2; text := "Part" |}] 1 = 1.
Proof.
  apply (headingStructure_perfect_score "u"
           [{| level := 1; text := "Intro" |}; {| level := 2; text := "Part" |}]).
  vm_compute. reflexivity.
Defined.

End HeadingExtraProps.

Module LinkMetaProps.
Import KDefs Shape HtmlExtract Html MetaTags KeywordExtra HtmlExtraProps.

Lemma upto_quote_no_quote : forall s b r, upto_quote s = Some (b, r) -> no_quote b = true.
Proof.
  induction s as [| c s IH]; intros b r H; simpl in H; [discriminate |].
  destruct (is_quote c) eqn:E.
  - injection H as <- _. reflexivity.
  - destruct (upto_quote s) as [[b' r'] |] eqn:Es; [| discriminate].
    injection H as <- _. unfold no_quote. simpl. rewrite E. apply (IH b' r'). reflexivity.
Qed.

Lemma first_match_some : forall {A : Type} (m : string -> option A) s a,
  first_match m s = Some a -> exists s', m s' = Some a.
Proof.
  intros A m s a. induction s as [| c s IH]; intros H; simpl in H;
    destruct (m _) eqn:E; eauto; try discriminate.
  - injection H as <-. eauto.
  - injection H as <-. eauto.
Qed.

Lemma getAttr_no_quote : forall attrs name v, getAttr attrs name = Some v -> no_quote v = true.
Proof.
  intros attrs name v H. apply first_match_some in H as [s' H].
  unfold attr_at in H. destruct (ci_starts_with (name ++ "=") s'); [| discriminate].
  destruct (drop (String.length name + 1) s') as [| q rest]; [discriminate |].
  destruct (is_quote q); [| discriminate].
  destruct (upto_quote rest) as [[b r] |] eqn:E; [| discriminate].
  injection H as <-. apply (upto_quote_no_quote _ _ _ E).
Qed.

(** Every extracted link has a non-empty [href] without quote characters,
    is internal exactly when the [href] starts with [/] or [#], and has a
    text whose whitespace is single spaces. *)
Theorem extractLinks_shape : forall html,
  Forall (fun l => href l <> EmptyString /\ no_quote (href l) = true
                   /\ isInternal l = (starts_with "/" (href l) || starts_with "#" (href l))
                   /\ only_space_ws (ltext l) = true /\ no_double_ws (ltext l) = true)
    (extractLinks html).
Proof.
  intros html. unfold extractLinks. generalize (S (String.length html)) as fuel.
  intros fuel. revert html. induction fuel as [| f IH]; intros s; simpl; [constructor |].
  destruct (anchor_at s) as [[[attrs content] rest] |] eqn:Ea.
  - destruct (getAttr attrs "href") as [h |] eqn:Eh; [| apply IH].
    destruct (String.eqb h EmptyString) eqn:Et; [apply IH |].
    constructor; [| apply IH]. cbn [href ltext isInternal].
    destruct (stripTags_whitespace content) as [W1 W2].
    split; [intros He; subst h; discriminate |].
    split; [apply (getAttr_no_quote _ _ _ Eh) |].
    split; [reflexivity |].
    split; [apply char_all_trim, W1 | apply no_double_trim, W2].
  - destruct s; [constructor | apply IH].
Qed.

(** Every extracted meta tag has a non-empty [property] or [name], and
    none of its three values contains a quote character. *)
Theorem extractMetaTags_shape : forall html,
  Forall (fun t => (truthy (property t) || truthy (name t)) = true
                   /\ no_quote (content t) = true
                   /\ (forall v, property t = Some v \/ name t = Some v -> no_quote v = true))
    (extractMetaTags html).
Proof.
  intros html. unfold extractMetaTags. generalize (S (String.length html)) as fuel.
  intros fuel. revert html. induction fuel as [| f IH]; intros s; simpl; [constructor |].
  destruct (meta_at s) as [[attrs rest] |].
  - unfold tag_of. destruct (truthy (getAttr attrs "property") || truthy (getAttr attrs "name")) eqn:E;
      [| apply IH].
    constructor; [| apply IH]. cbn [property name content].
    split; [exact E |]. split.
    + destruct (getAttr attrs "content") as [c |] eqn:Ec; [apply (getAttr_no_quote _ _ _ Ec) | reflexivity].
    + intros v [Hv | Hv]; apply (getAttr_no_quote _ _ _ Hv).
  - destruct s; [constructor | apply IH].
Qed.

End LinkMetaProps.

Module MetaExtraProps.
Import Html MetaTags MetaDefs.

Lemma missing_len : forall r k m, List.length (missing r k m) <= 1.
Proof. intros r k m. unfold missing. destruct (truthy _); simpl; lia. Qed.

Lemma rget_rset_same : forall r k v, rget (rset r k v) k = Some v.
Proof.
  induction r as [| [k' v'] r IH]; intros k v; simpl.
  - rewrite String.eqb_refl. reflexivity.
  - destruct (String.eqb k k') eqn:E; simpl; rewrite ?E; [reflexivity | apply IH].
Qed.

Lemma rget_rset_other : forall r k k' v, k' <> k -> rget (rset r k v) k' = rget r k'.
Proof.
  induction r as [| [a b] r IH]; intros k k' v Hne; simpl.
  - destruct (String.eqb k' k) eqn:E; [apply String.eqb_eq in E; congruence | reflexivity].
  - destruct (String.eqb k a) eqn:E; simpl.
    + apply String.eqb_eq in E. subst a.
      destruct (String.eqb k' k) eqn:E2; [apply String.eqb_eq in E2; congruence | reflexivity].
    + rewrite IH by exact Hne. reflexivity.
Qed.

Lemma last_opt_cons : forall {A : Type} (a : A) l,
  last_opt (a :: l) = match last_opt l with Some x => Some x | None => Some a end.
Proof.
  intros A a l. unfold last_opt. simpl. destruct (rev l); reflexivity.
Qed.

Lemma og_group_tag : forall g t k,
  starts_with "og:" k = true ->
  rget (og (group_tag g t)) k
  = if match property t with Some p => String.eqb p k | None => false end
    then Some (content t) else rget (og g) k.
Proof.
  intros g t k Hk. unfold group_tag, starts_opt.
  destruct (property t) as [p |] eqn:Ep.
  - destruct (String.eqb p k) eqn:E.
    + apply String.eqb_eq in E. subst p. rewrite Hk. simpl. apply rget_rset_same.
    + apply String.eqb_neq in E.
      destruct (starts_with "og:" p); [simpl; apply rget_rset_other; congruence |].
      destruct (_ || _); [reflexivity |].
      destruct (name t) as [n |]; [destruct (_ && _) |]; reflexivity.
  - destruct (_ || _); [reflexivity |].
    destruct (name t) as [n |]; [destruct (_ && _) |]; reflexivity.
Qed.

Lemma og_fold_last : forall tags g k,
  starts_with "og:" k = true ->
  rget (og (fold_left group_tag tags g)) k
  = match last_opt (filter (fun t => match property t with
                                      | Some p => String.eqb p k
                                      | None => false end) tags) with
    | Some t => Some (content t)
    | None => rget (og g) k
    end.
Proof.
  induction tags as [| t tags IH]; intros g k Hk; [reflexivity |].
  simpl. rewrite IH by exact Hk. rewrite og_group_tag by exact Hk.
  destruct (match property t with Some p => String.eqb p k | None => false end); [| reflexivity].
  rewrite last_opt_cons. destruct (last_opt _); reflexivity.
Qed.

Lemma metaTags_parts : forall u html,
  exists ti tok ttip di dok dtip,
    title_part (extractTitle html) = (ti, tok, ttip)
    /\ desc_part (desc_of html) = (di, dok, dtip)
    /\ ok (MetaTags.title (metaTags u html)) = tok
    /\ ok (MetaTags.description (metaTags u html)) = dok
    /\ issues (metaTags u html) = app ti (app di (rest_issues html))
    /\ score (metaTags u html) =
       Z_to_string (8 - Z.of_nat (List.length (issues (metaTags u html))))%Z ++ "/" ++ Z_to_string 8
    /\ openGraph (metaTags u html) = og (groups_of html).
Proof.
  intros u html. unfold metaTags. cbv beta zeta.
  fold (desc_of html). fold (groups_of html).
  set (T := if negb (truthy (extractTitle html)) then _ else _).
  set (D := if negb (truthy (desc_of html)) then _ else _).
  destruct T as [[ti tok] ttip] eqn:ET. destruct D as [[di dok] dtip] eqn:ED.
  exists ti, tok, ttip, di, dok, dtip.
  split; [exact ET |]. split; [exact ED |].
  cbn [issues ok MetaTags.title MetaTags.description score openGraph].
  repeat split; reflexivity.
Qed.

Lemma in_missing : forall r k m x, In x (missing r k m) -> x = m.
Proof. intros r k m x H. unfold missing in H. destruct (truthy _); simpl in H; intuition. Qed.

Lemma rest_issues_in : forall html x, In x (rest_issues html) ->
  In x ["Missing og:title"; "Missing og:description";
        "Missing og:image (no preview image for social shares)"; "Missing og:url";
        "Missing twitter:card"; "No canonical URL set"].
Proof.
  intros html x H. unfold rest_issues in H.
  repeat (apply in_app_or in H; destruct H as [H | H]; [apply in_missing in H; subst x; simpl; tauto |]).
  destruct (truthy (extractCanonical html)); simpl in H; [contradiction | destruct H as [<- | []]].
  simpl. tauto.
Qed.

Lemma rest_issues_len : forall html, List.length (rest_issues html) <= 6.
Proof.
  intros html. unfold rest_issues. rewrite !length_app.
  pose proof (missing_len (og (groups_of html)) "og:title" "Missing og:title").
  pose proof (missing_len (og (groups_of html)) "og:description" "Missing og:description").
  pose proof (missing_len (og (groups_of html)) "og:image" "Missing og:image (no preview image for social shares)").
  pose proof (missing_len (og (groups_of html)) "og:url" "Missing og:url").
  pose proof (missing_len (tw (groups_of html)) "twitter:card" "Missing twitter:card").
  destruct (truthy (extractCanonical html)); simpl; lia.
Qed.

Lemma title_part_cases : forall t ti tok ttip, title_part t = (ti, tok, ttip) ->
  tok = truthy t /\ ti = if truthy t then [] else ["Missing <title> tag"].
Proof.
  intros t ti tok ttip H. unfold title_part in H.
  destruct (truthy t); simpl in H.
  - destruct (len_opt t <? 30); [| destruct (60 <? len_opt t)]; injection H as <- <- _; auto.
  - injection H as <- <- _. auto.
Qed.

Lemma desc_part_cases : forall d di dok dtip, desc_part d = (di, dok, dtip) ->
  dok = truthy d /\ di = if truthy d then [] else ["Missing meta description"].
Proof.
  intros d di dok dtip H. unfold desc_part in H.
  destruct (truthy d); simpl in H.
  - destruct (len_opt d <? 70); [| destruct (160 <? len_opt d)]; injection H as <- <- _; auto.
  - injection H as <- <- _. auto.
Qed.

(** The meta-tag score is [p/8] where [p] is 8 minus the number of issues:
    there are at most 8 issues, so [p] lies between 0 and 8. *)
Theorem metaTags_score_range : forall u html,
  exists p, p <= 8 /\ p + List.length (issues (metaTags u html)) = 8
  /\ score (metaTags u html) = nat_to_string p ++ "/8".
Proof.
  intros u html.
  destruct (metaTags_parts u html) as (ti & tok & ttip & di & dok & dtip & ET & ED & _ & _ & Hi & Hs & _).
  apply title_part_cases in ET as [_ ET]. apply desc_part_cases in ED as [_ ED].
  assert (Hl : List.length (issues (metaTags u html)) <= 8).
  { rewrite Hi, !length_app, ET, ED. pose proof (rest_issues_len html).
    destruct (truthy (extractTitle html)), (truthy (desc_of html)); simpl; lia. }
  exists (8 - List.length (issues (metaTags u html))).
  split; [lia |]. split; [lia |].
  rewrite Hs. unfold nat_to_string. rewrite Nat2Z.inj_sub by exact Hl. reflexivity.
Qed.

(** [title.ok] is false exactly when the title is missing or empty, which is
    exactly when the issues contain [Missing <title> tag] (and then it is the
    first issue); likewise [description.ok] and [Missing meta description]
    for the first meta tag named [description]. *)
Theorem metaTags_ok_issues : forall u html,
  ok (MetaTags.title (metaTags u html)) = truthy (extractTitle html)
  /\ ok (MetaTags.description (metaTags u html)) = truthy (desc_of html)
  /\ (ok (MetaTags.title (metaTags u html)) = false
      <-> hd_error (issues (metaTags u html)) = Some "Missing <title> tag")
  /\ (ok (MetaTags.title (metaTags u html)) = false
      <-> In "Missing <title> tag" (issues (metaTags u html)))
  /\ (ok (MetaTags.description (metaTags u html)) = false
      <-> In "Missing meta description" (issues (metaTags u html))).
Proof.
  intros u html.
  destruct (metaTags_parts u html) as (ti & tok & ttip & di & dok & dtip & ET & ED & Ht & Hd & Hi & _ & _).
  apply title_part_cases in ET as [Et ET]. apply desc_part_cases in ED as [Ed ED].
  rewrite Ht, Hd, Hi, Et, Ed, ET, ED.
  assert (Nt : ~ In "Missing <title> tag" (rest_issues html)).
  { intros H. apply rest_issues_in in H. simpl in H. intuition discriminate. }
  assert (Nd : ~ In "Missing meta description" (rest_issues html)).
  { intros H. apply rest_issues_in in H. simpl in H. intuition discriminate. }
  assert (Hh : hd_error (rest_issues html) <> Some "Missing <title> tag").
  { destruct (rest_issues html) as [| x l] eqn:E; [discriminate |]. simpl. intros Hx.
    injection Hx as ->. apply Nt. try rewrite E. left. reflexivity. }
  destruct (truthy (extractTitle html)), (truthy (desc_of html)); simpl;
    repeat split; intros; try discriminate; try reflexivity; intuition (try discriminate).
Qed.

(** The Open Graph record maps each [og:] key to the content of the last
    extracted tag with that property: later tags overwrite earlier ones. *)
Theorem metaTags_og_last_wins : forall u html k,
  starts_with "og:" k = true ->
  rget (openGraph (metaTags u html)) k
  = option_map content
      (last_opt (filter (fun t => match property t with
                                  | Some p => String.eqb p k
                                  | None => false end) (extractMetaTags html))).
Proof.
  intros u html k Hk.
  destruct (metaTags_parts u html) as (_ & _ & _ & _ & _ & _ & _ & _ & _ & _ & _ & _ & Ho).
  rewrite Ho. unfold groups_of. rewrite og_fold_last by exact Hk. reflexivity.
Qed.

Lemma metaTags_og_last_wins_witness :
  rget (openGraph (metaTags "u" "<meta property='og:title' content='A'><meta property='og:title' content='B'>"))
    "og:title" = Some "B".
Proof.
  rewrite (metaTags_og_last_wins "u" "<meta property='og:title' content='A'><meta property='og:title' content='B'>"
             "og:title"); vm_compute; reflexivity.
Defined.

End MetaExtraProps.

Module RobotsProps.
Import Robots RobotsDefs KDefs.

Lemma concat_cons_head : forall c h t,
  String.concat ":" (String c h :: t) = String c (String.concat ":" (h :: t)).
Proof. intros c h [| x t]; reflexivity. Qed.

Lemma split_char_nonempty : forall sep s, split_char sep s <> [].
Proof.
  intros sep [| c s]; simpl; [discriminate |].
  destruct (Ascii.eqb c sep); [discriminate |].
  unfold cons_head. destruct (split_char sep s); discriminate.
Qed.

Lemma concat_split_colon : forall v, String.concat ":" (split_char ":" v) = v.
Proof.
  induction v as [| c v IH]; [reflexivity |]. simpl.
  destruct (Ascii.eqb c ":") eqn:E.
  - apply Ascii.eqb_eq in E. subst c.
    destruct (split_char ":" v) eqn:Es; [exfalso; exact (split_char_nonempty _ _ Es) |].
    simpl. rewrite <- IH. reflexivity.
  - unfold cons_head. destruct (split_char ":" v) as [| h t] eqn:Es;
      [exfalso; exact (split_char_nonempty _ _ Es) |].
    rewrite concat_cons_head, IH. reflexivity.
Qed.

Lemma split_colon_app : forall k v,
  char_all (fun c => negb (Ascii.eqb c ":")) k = true ->
  split_char ":" (k ++ String ":" v) = k :: split_char ":" v.
Proof.
  induction k as [| c k IH]; intros v Hk; simpl.
  - reflexivity.
  - simpl in Hk. apply andb_true_iff in Hk as [Hc Hk].
    destruct (Ascii.eqb c ":"); [discriminate |].
    rewrite IH by exact Hk. reflexivity.
Qed.

(** A directive line [key:value] whose key has no colon splits into the
    lower-cased trimmed key and the trimmed value, colons in the value kept
    (as in [Sitemap: https://...]). *)
Theorem directive_split : forall k v,
  char_all (fun c => negb (Ascii.eqb c ":")) k = true ->
  directive (k ++ ":" ++ v) = (trim (toLowerCase k), trim v).
Proof.
  intros k v Hk. unfold directive. change (":" ++ v) with (String ":" v). rewrite split_colon_app by exact Hk.
  cbn [hd tl]. rewrite concat_split_colon. reflexivity.
Qed.

Lemma directive_split_witness :
  directive ("Sitemap" ++ ":" ++ " https://a.io/s.xml ") = ("sitemap", "https://a.io/s.xml").
Proof.
  rewrite (directive_split "Sitemap" " https://a.io/s.xml ") by reflexivity.
  vm_compute. reflexivity.
Defined.

Lemma step_agents : forall st line,
  kept line = true ->
  map userAgent (rules_of (step st line))
  = app (map userAgent (rules_of st))
        (if is_key "user-agent" (directive line) then [snd (directive line)] else []).
Proof.
  intros st line Hk. unfold kept in Hk. unfold step.
  destruct (String.eqb line EmptyString || starts_with "#" line); [discriminate |].
  unfold is_key. destruct (directive line) as [k v]. cbn [fst snd].
  unfold rules_of. destruct (current st) as [c |] eqn:Ec.
  - destruct (String.eqb k "user-agent") eqn:Eu; cbn [current p_rules];
      [rewrite !map_app; reflexivity |].
    unfold with_current.
    destruct (String.eqb k "disallow"); [destruct (String.eqb v EmptyString) |];
      cbn [current p_rules]; rewrite ?Ec, ?map_app, ?app_nil_r; try reflexivity.
    destruct (String.eqb k "allow"); [destruct (String.eqb v EmptyString) |];
      cbn [current p_rules]; rewrite ?Ec, ?map_app, ?app_nil_r; try reflexivity.
    destruct (String.eqb k "crawl-delay"); [destruct (is_nan (parseFloat v)) |];
      cbn [current p_rules]; rewrite ?Ec, ?map_app, ?app_nil_r; try reflexivity.
    destruct (String.eqb k "sitemap");
      cbn [current p_rules]; rewrite ?Ec, ?map_app, ?app_nil_r; reflexivity.
  - destruct (String.eqb k "user-agent") eqn:Eu; cbn [current p_rules]; [rewrite map_app; reflexivity |].
    destruct (String.eqb k "sitemap"); cbn [current p_rules]; rewrite ?Ec, ?app_nil_r; reflexivity.
Qed.

Lemma step_sitemaps : forall st line,
  kept line = true ->
  p_sitemaps (step st line)
  = app (p_sitemaps st) (if is_key "sitemap" (directive line) then [snd (directive line)] else []).
Proof.
  intros st line Hk. unfold kept in Hk. unfold step.
  destruct (String.eqb line EmptyString || starts_with "#" line); [discriminate |].
  unfold is_key. destruct (directive line) as [k v]. cbn [fst snd].
  destruct (String.eqb k "sitemap") eqn:Es.
  - apply String.eqb_eq in Es. subst k. cbn. destruct (current st); reflexivity.
  - rewrite app_nil_r. unfold with_current.
    destruct (String.eqb k "user-agent"); cbn [p_sitemaps]; [reflexivity |].
    destruct (current st); [| reflexivity].
    destruct (String.eqb k "disallow"); [destruct (String.eqb v EmptyString); reflexivity |].
    destruct (String.eqb k "allow"); [destruct (String.eqb v EmptyString); reflexivity |].
    destruct (String.eqb k "crawl-delay"); [destruct (is_nan (parseFloat v)); reflexivity |].
    reflexivity.
Qed.

Lemma step_current : forall st line,
  kept line = true ->
  has_current (step st line) = has_current st || is_key "user-agent" (directive line).
Proof.
  intros st line Hk. unfold kept in Hk. unfold step.
  destruct (String.eqb line EmptyString || starts_with "#" line); [discriminate |].
  unfold is_key, has_current. destruct (directive line) as [k v]. cbn [fst snd].
  destruct (String.eqb k "user-agent"); cbn [current]; [destruct (current st); reflexivity |].
  unfold with_current.
  destruct (current st) as [c |] eqn:Ec.
  - destruct (String.eqb k "disallow"); [destruct (String.eqb v EmptyString); cbn [current]; rewrite ?Ec; reflexivity |].
    destruct (String.eqb k "allow"); [destruct (String.eqb v EmptyString); cbn [current]; rewrite ?Ec; reflexivity |].
    destruct (String.eqb k "crawl-delay"); [destruct (is_nan (parseFloat v)); cbn [current]; rewrite ?Ec; reflexivity |].
    destruct (String.eqb k "sitemap"); cbn [current]; rewrite ?Ec; reflexivity.
  - destruct (String.eqb k "sitemap"); cbn [current]; rewrite ?Ec; reflexivity.
Qed.

Lemma step_disallow : forall st line,
  kept line = true ->
  flat_map disallow (rules_of (step st line))
  = app (flat_map disallow (rules_of st))
        (if has_current st && nonempty_disallow (directive line) then [snd (directive line)] else []).
Proof.
  intros st line Hk. unfold kept in Hk. unfold step.
  destruct (String.eqb line EmptyString || starts_with "#" line); [discriminate |].
  unfold nonempty_disallow, has_current, rules_of.
  destruct (directive line) as [k v]. cbn [fst snd].
  destruct (String.eqb k "disallow") eqn:Ed.
  - apply String.eqb_eq in Ed. subst k. cbn - [flat_map].
    destruct (current st) as [c |] eqn:Ec; cbn - [flat_map]; [| rewrite Ec, app_nil_r; reflexivity].
    destruct (String.eqb v EmptyString); cbn - [flat_map]; rewrite ?Ec, ?app_nil_r; [reflexivity |].
    rewrite !flat_map_app. cbn. rewrite !app_nil_r, app_assoc. reflexivity.
  - rewrite andb_false_r, app_nil_r. unfold with_current.
    destruct (String.eqb k "user-agent"); cbn [current p_rules].
    + destruct (current st); rewrite !flat_map_app; cbn; rewrite ?app_nil_r; reflexivity.
    + destruct (current st) as [c |] eqn:Ec; [| destruct (String.eqb k "sitemap"); cbn [current p_rules]; rewrite ?Ec; reflexivity].
      destruct (String.eqb k "allow"); [destruct (String.eqb v EmptyString) |];
        cbn [current p_rules]; rewrite ?Ec; rewrite ?flat_map_app; cbn; try reflexivity.
      destruct (String.eqb k "crawl-delay"); [destruct (is_nan (parseFloat v)) |];
        cbn [current p_rules]; rewrite ?Ec; rewrite ?flat_map_app; cbn; try reflexivity.
      destruct (String.eqb k "sitemap"); cbn [current p_rules]; rewrite ?Ec, ?flat_map_app; cbn; reflexivity.
Qed.

Lemma step_allow : forall st line,
  kept line = true ->
  flat_map allow (rules_of (step st line))
  = app (flat_map allow (rules_of st))
        (if has_current st && nonempty_allow (directive line) then [snd (directive line)] else []).
Proof.
  intros st line Hk. unfold kept in Hk. unfold step.
  destruct (String.eqb line EmptyString || starts_with "#" line); [discriminate |].
  unfold nonempty_allow, has_current, rules_of.
  destruct (directive line) as [k v]. cbn [fst snd].
  destruct (String.eqb k "allow") eqn:Ea.
  - apply String.eqb_eq in Ea. subst k. cbn - [flat_map].
    destruct (current st) as [c |] eqn:Ec; cbn - [flat_map]; [| rewrite Ec, app_nil_r; reflexivity].
    destruct (String.eqb v EmptyString); cbn - [flat_map]; rewrite ?Ec, ?app_nil_r; [reflexivity |].
    rewrite !flat_map_app. cbn. rewrite !app_nil_r, app_assoc. reflexivity.
  - rewrite andb_false_r, app_nil_r. unfold with_current.
    destruct (String.eqb k "user-agent"); cbn [current p_rules].
    + destruct (current st); rewrite !flat_map_app; cbn; rewrite ?app_nil_r; reflexivity.
    + destruct (current st) as [c |] eqn:Ec; [| destruct (String.eqb k "sitemap"); cbn [current p_rules]; rewrite ?Ec; reflexivity].
      destruct (String.eqb k "disallow"); [destruct (String.eqb v EmptyString) |];
        cbn [current p_rules]; rewrite ?Ec; rewrite ?flat_map_app; cbn; try reflexivity.
      destruct (String.eqb k "crawl-delay"); [destruct (is_nan (parseFloat v)) |];
        cbn [current p_rules]; rewrite ?Ec; rewrite ?flat_map_app; cbn; try reflexivity.
      destruct (String.eqb k "sitemap"); cbn [current p_rules]; rewrite ?Ec, ?flat_map_app; cbn; reflexivity.
Qed.

Lemma step_skip : forall st line, kept line = false -> step st line = st.
Proof.
  intros st line Hk. unfold kept in Hk. unfold step.
  destruct (String.eqb line EmptyString || starts_with "#" line); [reflexivity | discriminate].
Qed.

Lemma fold_agents : forall ls st,
  map userAgent (rules_of (fold_left step ls st))
  = app (map userAgent (rules_of st))
        (map snd (filter (is_key "user-agent") (map directive (filter kept ls)))).
Proof.
  induction ls as [| l ls IH]; intros st; simpl; [rewrite app_nil_r; reflexivity |].
  destruct (kept l) eqn:Ek.
  - rewrite IH, step_agents by exact Ek. simpl.
    destruct (is_key "user-agent" (directive l)); simpl; rewrite <- app_assoc; reflexivity.
  - rewrite step_skip by exact Ek. apply IH.
Qed.

Lemma fold_sitemaps : forall ls st,
  p_sitemaps (fold_left step ls st)
  = app (p_sitemaps st) (map snd (filter (is_key "sitemap") (map directive (filter kept ls)))).
Proof.
  induction ls as [| l ls IH]; intros st; simpl; [rewrite app_nil_r; reflexivity |].
  destruct (kept l) eqn:Ek.
  - rewrite IH, step_sitemaps by exact Ek. simpl.
    destruct (is_key "sitemap" (directive l)); simpl; rewrite <- app_assoc; reflexivity.
  - rewrite step_skip by exact Ek. apply IH.
Qed.

Lemma ua_not_disallow : forall kv, is_key "user-agent" kv = true -> nonempty_disallow kv = false.
Proof.
  intros [k v] H. unfold is_key in H. simpl in H. apply String.eqb_eq in H. subst k. reflexivity.
Qed.

Lemma ua_not_allow : forall kv, is_key "user-agent" kv = true -> nonempty_allow kv = false.
Proof.
  intros [k v] H. unfold is_key in H. simpl in H. apply String.eqb_eq in H. subst k. reflexivity.
Qed.

Lemma fold_disallow : forall ls st,
  flat_map disallow (rules_of (fold_left step ls st))
  = app (flat_map disallow (rules_of st))
        (map snd (filter nonempty_disallow
                   (let ds := map directive (filter kept ls) in
                    if has_current st then ds else from_first_ua ds))).
Proof.
  induction ls as [| l ls IH]; intros st; cbn [fold_left filter map];
    [destruct (has_current st); simpl; rewrite app_nil_r; reflexivity |].
  destruct (kept l) eqn:Ek.
  - rewrite IH, step_disallow, step_current by exact Ek. cbn [map].
    destruct (has_current st) eqn:Ec; cbn [orb andb from_first_ua].
    + cbn [filter]. destruct (nonempty_disallow (directive l)); cbn [map];
        rewrite <- app_assoc; reflexivity.
    + destruct (is_key "user-agent" (directive l)) eqn:Eu; cbn [filter];
        rewrite ?(ua_not_disallow _ Eu); rewrite app_nil_r; reflexivity.
  - rewrite step_skip by exact Ek. apply IH.
Qed.

Lemma fold_allow : forall ls st,
  flat_map allow (rules_of (fold_left step ls st))
  = app (flat_map allow (rules_of st))
        (map snd (filter nonempty_allow
                   (let ds := map directive (filter kept ls) in
                    if has_current st then ds else from_first_ua ds))).
Proof.
  induction ls as [| l ls IH]; intros st; cbn [fold_left filter map];
    [destruct (has_current st); simpl; rewrite app_nil_r; reflexivity |].
  destruct (kept l) eqn:Ek.
  - rewrite IH, step_allow, step_current by exact Ek. cbn [map].
    destruct (has_current st) eqn:Ec; cbn [orb andb from_first_ua].
    + cbn [filter]. destruct (nonempty_allow (directive l)); cbn [map];
        rewrite <- app_assoc; reflexivity.
    + destruct (is_key "user-agent" (directive l)) eqn:Eu; cbn [filter];
        rewrite ?(ua_not_allow _ Eu); rewrite app_nil_r; reflexivity.
  - rewrite step_skip by exact Ek. apply IH.
Qed.

Lemma robotsTxt_rules : forall u text,
  rules (robotsTxt u true text)
  = rules_of (fold_left step (map trim (split_char newline_char text)) init_state).
Proof. reflexivity. Qed.

Lemma robotsTxt_sitemaps : forall u text,
  sitemaps (robotsTxt u true text)
  = p_sitemaps (fold_left step (map trim (split_char newline_char text)) init_state).
Proof. reflexivity. Qed.

(** For a robots.txt that was found, the user agents of [rules] are the
    values of the [user-agent] lines in order, [sitemaps] are the values of
    all [sitemap] lines in order, and the [disallow] (resp. [allow]) lists of
    the rules, concatenated, are the non-empty values of the [disallow]
    (resp. [allow]) lines from the first [user-agent] line on; empty lines
    and [#] comment lines are skipped. *)
Theorem robotsTxt_directives : forall u text,
  map userAgent (rules (robotsTxt u true text))
    = map snd (filter (is_key "user-agent") (directives text))
  /\ sitemaps (robotsTxt u true text) = map snd (filter (is_key "sitemap") (directives text))
  /\ flat_map disallow (rules (robotsTxt u true text))
    = map snd (filter nonempty_disallow (from_first_ua (directives text)))
  /\ flat_map allow (rules (robotsTxt u true text))
    = map snd (filter nonempty_allow (from_first_ua (directives text))).
Proof.
  intros u text. rewrite robotsTxt_rules, robotsTxt_sitemaps.
  rewrite fold_agents, fold_sitemaps, fold_disallow, fold_allow. unfold directives.
  repeat split; reflexivity.
Qed.

Lemma total_disallowed : forall rs a,
  fold_left (fun sum r => sum + List.length (disallow r)) rs a = a + List.length (flat_map disallow rs).
Proof.
  induction rs as [| r rs IH]; intros a; simpl; [lia |]. rewrite IH, length_app. lia.
Qed.

Lemma find_agent_none : forall rs,
  find (fun r => String.eqb (userAgent r) "*") rs = None <-> ~ In "*" (map userAgent rs).
Proof.
  induction rs as [| r rs IH]; simpl; [tauto |].
  destruct (String.eqb (userAgent r) "*") eqn:E.
  - apply String.eqb_eq in E. split; [discriminate | intros H; exfalso; apply H; left; exact E].
  - apply String.eqb_neq in E. rewrite IH. intuition.
Qed.

Lemma existsb_slash : forall rs,
  existsb (fun r => existsb (String.eqb "/") (disallow r)) rs = true <-> In "/" (flat_map disallow rs).
Proof.
  intros rs. rewrite existsb_exists. rewrite in_flat_map. split.
  - intros (r & Hr & He). apply existsb_exists in He as (x & Hx & Ex).
    apply String.eqb_eq in Ex. subst x. eauto.
  - intros (r & Hr & Hx). exists r. split; [exact Hr |].
    apply existsb_exists. exists "/". split; [exact Hx | apply String.eqb_refl].
Qed.

Lemma issue_list : forall a b c d : bool,
  let L := app (if a then ["No Sitemap directive found. Add one to help search engines discover pages."] else [])
           (app (if b then ["No rules for User-agent: *. Consider adding a default rule set."] else [])
           (app (if c then ["No Disallow rules. Everything is crawlable (may be intentional)."] else [])
                (if d then ["WARNING: Disallow: / blocks ALL crawling for that user-agent."] else []))) in
  (In "No Sitemap directive found. Add one to help search engines discover pages." L <-> a = true)
  /\ (In "No rules for User-agent: *. Consider adding a default rule set." L <-> b = true)
  /\ (In "No Disallow rules. Everything is crawlable (may be intentional)." L <-> c = true)
  /\ (In "WARNING: Disallow: / blocks ALL crawling for that user-agent." L <-> d = true).
Proof. intros [] [] [] []; simpl; intuition discriminate. Qed.

(** For a robots.txt that was found, each of the four issues is reported
    exactly when: there is no [sitemap] line; no [user-agent] line has the
    value [*]; no non-empty [disallow] line follows the first [user-agent]
    line; some such [disallow] line has the value [/]. *)
Theorem robotsTxt_issues : forall u text,
  let ds := directives text in
  let r := robotsTxt u true text in
  (In "No Sitemap directive found. Add one to help search engines discover pages." (issues r)
     <-> filter (is_key "sitemap") ds = [])
  /\ (In "No rules for User-agent: *. Consider adding a default rule set." (issues r)
     <-> ~ In "*" (map snd (filter (is_key "user-agent") ds)))
  /\ (In "No Disallow rules. Everything is crawlable (may be intentional)." (issues r)
     <-> filter nonempty_disallow (from_first_ua ds) = [])
  /\ (In "WARNING: Disallow: / blocks ALL crawling for that user-agent." (issues r)
     <-> In "/" (map snd (filter nonempty_disallow (from_first_ua ds)))).
Proof.
  intros u text ds r. subst ds r.
  destruct (robotsTxt_directives u text) as (Ha & Hs & Hd & _).
  set (RS := rules (robotsTxt u true text)) in *. set (SM := sitemaps (robotsTxt u true text)) in *.
  assert (Hi : issues (robotsTxt u true text) =
    app (if List.length SM =? 0 then ["No Sitemap directive found. Add one to help search engines discover pages."] else [])
    (app (if match find (fun r => String.eqb (userAgent r) "*") RS with Some _ => false | None => true end
          then ["No rules for User-agent: *. Consider adding a default rule set."] else [])
    (app (if List.length (flat_map disallow RS) =? 0
          then ["No Disallow rules. Everything is crawlable (may be intentional)."] else [])
         (if existsb (fun r => existsb (String.eqb "/") (disallow r)) RS
          then ["WARNING: Disallow: / blocks ALL crawling for that user-agent."] else [])))).
  { subst RS SM. unfold robotsTxt at 1. cbn [negb issues].
    rewrite total_disallowed. simpl (0 + _).
    destruct (find _ _); reflexivity. }
  rewrite Hi. destruct (issue_list (List.length SM =? 0)
    (match find (fun r => String.eqb (userAgent r) "*") RS with Some _ => false | None => true end)
    (List.length (flat_map disallow RS) =? 0)
    (existsb (fun r => existsb (String.eqb "/") (disallow r)) RS)) as (I1 & I2 & I3 & I4).
  rewrite I1, I2, I3, I4, existsb_slash, Hd. clear I1 I2 I3 I4 Hi.
  rewrite Nat.eqb_eq, Nat.eqb_eq, Hs, !length_map, !length_zero_iff_nil.
  repeat split; try tauto.
  - destruct (find _ RS) eqn:Ef; [discriminate |]. intros _. rewrite <- Ha. apply find_agent_none. exact Ef.
  - intros H. rewrite <- Ha in H. apply find_agent_none in H. rewrite H. reflexivity.
Qed.

(** The summary of a found robots.txt counts the [user-agent] lines, the
    kept [disallow] lines and the [sitemap] lines. *)
Theorem robotsTxt_summary : forall u text,
  let ds := directives text in
  summary (robotsTxt u true text)
  = "Found " ++ nat_to_string (List.length (filter (is_key "user-agent") ds))
    ++ " user-agent block(s), "
    ++ nat_to_string (List.length (filter nonempty_disallow (from_first_ua ds)))
    ++ " disallow rule(s), "
    ++ nat_to_string (List.length (filter (is_key "sitemap") ds)) ++ " sitemap(s).".
Proof.
  intros u text ds.
  destruct (robotsTxt_directives u text) as (Ha & Hs & Hd & _).
  rewrite <- (length_map snd (filter (is_key "user-agent") ds)).
  rewrite <- (length_map snd (filter nonempty_disallow (from_first_ua ds))).
  rewrite <- (length_map snd (filter (is_key "sitemap") ds)).
  subst ds. rewrite <- Ha, <- Hs, <- Hd, length_map.
  rewrite robotsTxt_rules, robotsTxt_sitemaps.
  unfold robotsTxt at 1. cbn [negb summary]. rewrite total_disallowed. reflexivity.
Qed.

End RobotsProps.

Module SitemapProps.
Import KDefs Shape Html Sitemap SitemapDefs LinkMetaProps.

Lemma lazy_close_eq : forall close r,
  lazy_close close r =
  if ci_starts_with close (trim_start r)
  then Some (EmptyString, drop (String.length close) (trim_start r))
  else match r with
       | EmptyString => None
       | String c r0 =>
           if is_line_term c then None
           else match lazy_close close r0 with
                | Some (v, rest) => Some (String c v, rest)
                | None => None
                end
       end.
Proof. intros close [| c r]; reflexivity. Qed.

Lemma lazy_close_empty : forall close r rest,
  lazy_close close r = Some (EmptyString, rest) -> ci_starts_with close (trim_start r) = true.
Proof.
  intros close r rest H. rewrite lazy_close_eq in H.
  destruct (ci_starts_with close (trim_start r)); [reflexivity |].
  destruct r as [| c r]; [discriminate |].
  destruct (is_line_term c); [discriminate |].
  destruct (lazy_close close r) as [[v' r'] |]; discriminate.
Qed.

Lemma lazy_close_shape : forall close r v rest,
  lazy_close close r = Some (v, rest) ->
  last_space v = false /\ char_all (fun c => negb (is_line_term c)) v = true
  /\ (v = EmptyString \/ exists c v' r', v = String c v' /\ r = String c r').
Proof.
  intros close. induction r as [| c r IH]; intros v rest H; rewrite lazy_close_eq in H.
  - destruct (ci_starts_with close (trim_start EmptyString)); [| discriminate].
    injection H as <- _. auto.
  - destruct (ci_starts_with close (trim_start (String c r))) eqn:E.
    { injection H as <- _. auto. }
    destruct (is_line_term c) eqn:Et; [discriminate |].
    destruct (lazy_close close r) as [[v0 r0] |] eqn:Er; [| discriminate].
    injection H as <- _.
    destruct (IH v0 r0 eq_refl) as (L & C & _).
    split; [| split; [simpl; rewrite Et, C; reflexivity | right; eauto]].
    destruct v0 as [| d v0].
    + simpl. destruct (is_space c) eqn:Es; [| reflexivity].
      apply lazy_close_empty in Er. simpl in E. rewrite Es in E. congruence.
    + exact L.
Qed.

Lemma first_space_trim_start : forall s, first_space (trim_start s) = false.
Proof.
  induction s as [| c s IH]; simpl; [reflexivity |].
  destruct (is_space c) eqn:E; [exact IH | simpl; exact E].
Qed.

Lemma tag_value_clean : forall o c s v rest,
  tag_value_at o c s = Some (v, rest) -> clean_value v = true.
Proof.
  intros o c s v rest H. unfold tag_value_at in H.
  destruct (ci_starts_with o s); [| discriminate].
  pose proof (first_space_trim_start (drop (String.length o) s)) as F.
  apply lazy_close_shape in H as (L & C & [-> | (d & v' & r' & -> & Er)]);
    unfold clean_value; rewrite L, C; [reflexivity |].
  rewrite Er in F. simpl in F. simpl first_space. rewrite F. reflexivity.
Qed.

Lemma loc_scan_clean : forall fuel s, Forall (fun v => clean_value v = true) (loc_scan fuel s).
Proof.
  induction fuel as [| f IH]; intros s; simpl; [constructor |].
  destruct (tag_value_at "<loc>" "</loc>" s) as [[v rest] |] eqn:E.
  - constructor; [exact (tag_value_clean _ _ _ _ _ E) | apply IH].
  - destruct s; [constructor | apply IH].
Qed.

Lemma first_tag_clean : forall o c block v r,
  first_match (tag_value_at o c) block = Some (v, r) -> clean_value v = true.
Proof.
  intros o c block v r H. apply first_match_some in H as [s' H].
  exact (tag_value_clean _ _ _ _ _ H).
Qed.

Lemma block_scan_clean : forall fuel s,
  Forall (fun v => clean_value v = true) (fst (block_scan fuel s))
  /\ Forall (fun v => clean_value v = true) (snd (block_scan fuel s)).
Proof.
  induction fuel as [| f IH]; intros s; simpl; [split; constructor |].
  destruct (url_block_at s) as [[block rest] |].
  - destruct (block_scan f rest) as [us ds] eqn:Eb.
    destruct (IH rest) as [Hu Hd]. rewrite Eb in Hu, Hd. simpl in Hu, Hd.
    split; simpl.
    + destruct (first_match (tag_value_at "<loc>" "</loc>") block) as [[v r] |] eqn:E; [| exact Hu].
      constructor; [exact (first_tag_clean _ _ _ _ _ E) | exact Hu].
    + destruct (first_match (tag_value_at "<lastmod>" "</lastmod>") block) as [[v r] |] eqn:E; [| exact Hd].
      constructor; [exact (first_tag_clean _ _ _ _ _ E) | exact Hd].
  - destruct s; [split; constructor | apply IH].
Qed.

Lemma collect_cases : forall text fmt urls lm ch,
  collect text = (fmt, urls, lm, ch) ->
  (fmt = FIndex -> urls = [] /\ lm = [] /\ Forall (fun v => clean_value v = true) ch)
  /\ (fmt <> FIndex -> ch = [])
  /\ (fmt = FXml -> Forall (fun v => clean_value v = true) urls
                    /\ Forall (fun v => clean_value v = true) lm)
  /\ (fmt <> FXml -> lm = [])
  /\ (fmt = FUnknown -> urls = []).
Proof.
  intros text fmt urls lm ch H. unfold collect in H.
  destruct (includes text "<sitemapindex").
  { injection H as <- <- <- <-.
    split; [intros _; split; [reflexivity | split; [reflexivity | exact (loc_scan_clean (S (String.length text)) text)]] |].
    repeat split; congruence. }
  destruct (includes text "<urlset").
  { destruct (block_scan (S (String.length text)) text) as [us ds] eqn:Eb.
    injection H as <- <- <- <-.
    destruct (block_scan_clean (S (String.length text)) text) as [Hu Hd].
    rewrite Eb in Hu, Hd. repeat split; try congruence; assumption. }
  destruct (starts_with "http" (trim text)); injection H as <- <- <- <-;
    repeat split; congruence.
Qed.

Lemma dedup_in : forall l seen x, In x (dedup seen l) <-> In x l /\ ~ In x seen.
Proof.
  induction l as [| y l IH]; intros seen x; simpl; [tauto |].
  destruct (existsb (String.eqb y) seen) eqn:E.
  - rewrite IH. apply existsb_exists in E as (z & Hz & Ez). apply String.eqb_eq in Ez. subst z.
    split; [tauto |]. intros [[-> | H] N]; [contradiction | auto].
  - simpl. rewrite IH. simpl.
    assert (~ In y seen).
    { intros Hy. rewrite <- Bool.not_true_iff_false in E. apply E.
      apply existsb_exists. exists y. split; [exact Hy | apply String.eqb_refl]. }
    split.
    + intros [-> | [H1 H2]]; [auto | tauto].
    + intros [[-> | H1] H2]; [auto |]. destruct (String.eqb_spec y x); [auto | right; tauto].
Qed.

Lemma dedup_nodup : forall l seen, NoDup (dedup seen l).
Proof.
  induction l as [| y l IH]; intros seen; simpl; [constructor |].
  destruct (existsb (String.eqb y) seen); [apply IH |].
  constructor; [| apply IH]. rewrite dedup_in. simpl. tauto.
Qed.

Lemma dedup_length_le : forall l seen, List.length (dedup seen l) <= List.length l.
Proof.
  induction l as [| y l IH]; intros seen; simpl; [lia |].
  destruct (existsb (String.eqb y) seen); simpl; [specialize (IH seen) | specialize (IH (y :: seen))]; lia.
Qed.

Lemma dedup_length_eq : forall l seen,
  List.length (dedup seen l) = List.length l <-> NoDup l /\ (forall x, In x l -> ~ In x seen).
Proof.
  induction l as [| y l IH]; intros seen; simpl.
  - split; [intros _; split; [constructor | tauto] | reflexivity].
  - destruct (existsb (String.eqb y) seen) eqn:E.
    + split.
      * intros H. pose proof (dedup_length_le l seen). lia.
      * intros [_ H]. exfalso. apply (H y (or_introl eq_refl)).
        apply existsb_exists in E as (z & Hz & Ez). apply String.eqb_eq in Ez. subst z. exact Hz.
    + simpl. split.
      * intros H. injection H as H. apply IH in H as [Hn Hs].
        split; [constructor; [intros Hy; apply (Hs y Hy); left; reflexivity | exact Hn] |].
        intros x [-> | Hx].
        -- intros Hy. rewrite <- Bool.not_true_iff_false in E. apply E.
           apply existsb_exists. exists x. split; [exact Hy | apply String.eqb_refl].
        -- intros Hx'. apply (Hs x Hx). right. exact Hx'.
      * intros [Hn Hs]. inversion Hn as [| y' l' Hy Hn']. subst.
        f_equal. apply IH. split; [exact Hn' |].
        intros x Hx [-> | Hx']; [contradiction | exact (Hs x (or_intror Hx) Hx')].
Qed.

Lemma sitemapCheck_200 : forall u text fmt urls lm ch,
  collect text = (fmt, urls, lm, ch) ->
  found (sitemapCheck u 200 text) = true
  /\ format (sitemapCheck u 200 text) = fmt
  /\ sampleUrls (sitemapCheck u 200 text) = firstn 10 urls
  /\ lastModDates (sitemapCheck u 200 text) = firstn 5 (dedup [] lm)
  /\ childSitemaps (sitemapCheck u 200 text) = ch
  /\ urlCount (sitemapCheck u 200 text)
     = match fmt with FIndex => List.length ch | _ => List.length urls end.
Proof.
  intros u text fmt urls lm ch H. unfold sitemapCheck. cbn [negb Nat.eqb]. rewrite H.
  repeat split; reflexivity.
Qed.

Lemma incl_firstn : forall {A : Type} n (l : list A), incl (firstn n l) l.
Proof.
  intros A n l x Hx. rewrite <- (firstn_skipn n l). apply in_or_app. left. exact Hx.
Qed.

Lemma NoDup_firstn : forall {A : Type} n (l : list A), NoDup l -> NoDup (firstn n l).
Proof.
  intros A n l H. rewrite <- (firstn_skipn n l) in H. apply NoDup_app_remove_r in H. exact H.
Qed.

(** For a sitemap that was fetched (status 200): an index has no sample URLs
    and no lastmod dates, and counts its child sitemaps; any other format has
    no child sitemaps and counts at least the URLs it samples; only an XML
    urlset has lastmod dates; an unknown format counts 0 URLs; at most 10
    sample URLs and at most 5 lastmod dates are kept, the dates distinct. *)
Theorem sitemapCheck_fields : forall u text,
  let r := sitemapCheck u 200 text in
  found r = true
  /\ (format r = FIndex ->
      sampleUrls r = [] /\ lastModDates r = [] /\ urlCount r = List.length (childSitemaps r))
  /\ (format r <> FIndex -> childSitemaps r = [] /\ List.length (sampleUrls r) <= urlCount r)
  /\ (format r <> FXml -> lastModDates r = [])
  /\ (format r = FUnknown -> urlCount r = 0)
  /\ List.length (sampleUrls r) <= 10
  /\ List.length (lastModDates r) <= 5
  /\ NoDup (lastModDates r).
Proof.
  intros u text r. subst r.
  destruct (collect text) as [[[fmt urls] lm] ch] eqn:Ec.
  destruct (sitemapCheck_200 u text _ _ _ _ Ec) as (Hf & Hfm & Hs & Hl & Hc & Hu).
  destruct (collect_cases _ _ _ _ _ Ec) as (CI & CN & _ & CX & CU).
  rewrite Hf, Hfm, Hs, Hl, Hc, Hu.
  split; [reflexivity |].
  split; [intros -> ; destruct (CI eq_refl) as (-> & -> & _); repeat split; reflexivity |].
  split; [intros Hn; split; [exact (CN Hn) |]; rewrite length_firstn; destruct fmt; try congruence; lia |].
  split; [intros Hn; rewrite (CX Hn); reflexivity |].
  split; [intros ->; rewrite (CU eq_refl); reflexivity |].
  split; [rewrite length_firstn; lia |].
  split; [rewrite length_firstn; lia |].
  apply NoDup_firstn, dedup_nodup.
Qed.

(** For a sitemap that was fetched, every child sitemap and lastmod date,
    and every sample URL of an XML urlset, is a captured tag value with no
    whitespace at either end and no line terminator. *)
Theorem sitemapCheck_values_clean : forall u text,
  let r := sitemapCheck u 200 text in
  Forall (fun v => clean_value v = true) (childSitemaps r)
  /\ Forall (fun v => clean_value v = true) (lastModDates r)
  /\ (format r = FXml -> Forall (fun v => clean_value v = true) (sampleUrls r)).
Proof.
  intros u text r. subst r.
  destruct (collect text) as [[[fmt urls] lm] ch] eqn:Ec.
  destruct (sitemapCheck_200 u text _ _ _ _ Ec) as (_ & Hfm & Hs & Hl & Hc & _).
  destruct (collect_cases _ _ _ _ _ Ec) as (CI & CN & CXc & CX & _).
  rewrite Hfm, Hs, Hl, Hc.
  assert (Hlm : Forall (fun v => clean_value v = true) lm).
  { destruct fmt; [apply (CXc eq_refl) | rewrite CX by discriminate; constructor ..]. }
  split; [| split].
  - destruct fmt; [rewrite CN by discriminate; constructor | apply (CI eq_refl)
                   | rewrite CN by discriminate; constructor ..].
  - apply (incl_Forall (incl_firstn 5 (dedup [] lm))).
    apply Forall_forall. intros x Hx. apply dedup_in in Hx as [Hx _].
    rewrite Forall_forall in Hlm. apply Hlm, Hx.
  - intros ->. apply (incl_Forall (incl_firstn 10 urls)). apply (CXc eq_refl).
Qed.

Lemma uint_digits : forall d, char_all Robots.is_digit (NilEmpty.string_of_uint d) = true.
Proof. induction d; simpl; auto. Qed.

Lemma nat_to_string_digits : forall n, char_all Robots.is_digit (nat_to_string n) = true.
Proof.
  intros n. unfold nat_to_string, Z_to_string.
  destruct (Z.of_nat n) eqn:E; [reflexivity | apply uint_digits | lia].
Qed.

Lemma digits_space_prefix : forall a b x y,
  char_all Robots.is_digit a = true -> char_all Robots.is_digit b = true ->
  a ++ String " " x = b ++ String " " y -> x = y.
Proof.
  induction a as [| c a IH]; intros [| d b] x y Ha Hb H; simpl in *.
  - injection H as H. exact H.
  - injection H as <- _. discriminate.
  - injection H as -> _. apply andb_true_iff in Ha as [Ha _]. discriminate.
  - apply andb_true_iff in Ha as [_ Ha]. apply andb_true_iff in Hb as [_ Hb].
    injection H as _ H. exact (IH b x y Ha Hb H).
Qed.

Lemma dup_msg_head : forall k c t,
  Robots.is_digit c = false -> c <> " "%char ->
  nat_to_string k ++ " duplicate URL(s) found." <> String c t.
Proof.
  intros k c t Hc Hs H. pose proof (nat_to_string_digits k) as D.
  destruct (nat_to_string k) as [| d r]; simpl in H; injection H as <- _; [congruence |].
  simpl in D. rewrite Hc in D. discriminate.
Qed.

(** For a fetched XML or text sitemap with the URL list [urls], a duplicate
    issue is reported exactly when [urls] has a repeated entry, and it then
    gives the number of entries beyond the first occurrences. *)
Theorem sitemapCheck_duplicates : forall u text fmt urls lm ch,
  collect text = (fmt, urls, lm, ch) -> is_list_format fmt = true ->
  (NoDup urls <-> forall k, ~ In (dup_message k) (issues (sitemapCheck u 200 text)))
  /\ (~ NoDup urls ->
      0 < List.length urls - List.length (dedup [] urls)
      /\ In (dup_message (List.length urls - List.length (dedup [] urls)))
            (issues (sitemapCheck u 200 text))).
Proof.
  intros u text fmt urls lm ch Ec Hl.
  assert (Hi : issues (sitemapCheck u 200 text) =
    app (if List.length urls =? 0 then ["Sitemap contains 0 URLs."]
         else if (50000 <? Z.of_nat (List.length urls))%Z then
           ["Sitemap has " ++ nat_to_string (List.length urls)
            ++ " URLs. Max recommended per sitemap is 50,000."]
         else [])
    (app (if 0 <? List.length (filter (fun u => negb (starts_with "https://" u)) urls)
          then [nat_to_string (List.length (filter (fun u => negb (starts_with "https://" u)) urls))
                ++ " URL(s) are not HTTPS."] else [])
         (app (if List.length (dedup [] urls) <? List.length urls
               then [dup_message (List.length urls - List.length (dedup [] urls))] else [])
              (match lm, fmt with
               | [], FXml =>
                   if 0 <? List.length urls
                   then ["No <lastmod> dates found. Adding them helps search engines prioritize crawling."]
                   else []
               | _, _ => []
               end)))).
  { unfold sitemapCheck. cbn [negb Nat.eqb]. rewrite Ec. cbn [issues].
    destruct fmt; try discriminate; cbn [is_list_format]. all: rewrite app_nil_l, <- !app_assoc; reflexivity. }
  pose proof (dedup_length_le urls []) as Hle.
  assert (Hnd : NoDup urls <-> List.length (dedup [] urls) = List.length urls).
  { rewrite dedup_length_eq. simpl. intuition. }
  assert (Hother : forall k s, In s
      (app (if List.length urls =? 0 then ["Sitemap contains 0 URLs."]
            else if (50000 <? Z.of_nat (List.length urls))%Z then
              ["Sitemap has " ++ nat_to_string (List.length urls)
               ++ " URLs. Max recommended per sitemap is 50,000."]
            else [])
      (app (if 0 <? List.length (filter (fun u => negb (starts_with "https://" u)) urls)
            then [nat_to_string (List.length (filter (fun u => negb (starts_with "https://" u)) urls))
                  ++ " URL(s) are not HTTPS."] else [])
           (match lm, fmt with
            | [], FXml =>
                if 0 <? List.length urls
                then ["No <lastmod> dates found. Adding them helps search engines prioritize crawling."]
                else []
            | _, _ => []
            end))) -> s <> dup_message k).
  { intros k s Hs Heq. subst s. unfold dup_message in Hs.
    repeat (apply in_app_or in Hs; destruct Hs as [Hs | Hs]).
    - destruct (List.length urls =? 0); [| destruct (50000 <? _)%Z]; simpl in Hs;
        (contradiction || destruct Hs as [Hs | []]); refine (dup_msg_head k _ _ _ _ (eq_sym Hs)); try reflexivity; discriminate.
    - destruct (0 <? _); simpl in Hs; [destruct Hs as [Hs | []] | contradiction].
      apply digits_space_prefix in Hs; [discriminate | apply nat_to_string_digits | apply nat_to_string_digits].
    - destruct lm; [destruct fmt; [destruct (0 <? List.length urls) | ..] |]; simpl in Hs;
        (contradiction || destruct Hs as [Hs | []]).
      refine (dup_msg_head k _ _ _ _ (eq_sym Hs)); [reflexivity | discriminate]. }
  assert (Hin : forall k, In (dup_message k) (issues (sitemapCheck u 200 text)) ->
             List.length (dedup [] urls) < List.length urls).
  { intros k H. rewrite Hi in H.
    destruct (List.length (dedup [] urls) <? List.length urls) eqn:Elt; [apply Nat.ltb_lt, Elt |].
    exfalso. apply (Hother k (dup_message k)); [| reflexivity].
    rewrite app_nil_l in H. exact H. }
  assert (Hmsg : List.length (dedup [] urls) < List.length urls ->
             In (dup_message (List.length urls - List.length (dedup [] urls))) (issues (sitemapCheck u 200 text))).
  { intros Hlt. rewrite Hi. apply Nat.ltb_lt in Hlt. rewrite Hlt.
    apply in_or_app. right. apply in_or_app. right. apply in_or_app. left. left. reflexivity. }
  split.
  - rewrite Hnd. split.
    + intros Heq k H. apply Hin in H. lia.
    + intros H. destruct (Nat.eq_dec (List.length (dedup [] urls)) (List.length urls)) as [E | E]; [exact E |].
      exfalso. apply (H (List.length urls - List.length (dedup [] urls))). apply Hmsg. lia.
  - rewrite Hnd. intros H. split; [lia |]. apply Hmsg. lia.
Qed.

Lemma sitemapCheck_duplicates_witness :
  collect "https://a.io/x
https://a.io/x" = (FText, ["https://a.io/x"; "https://a.io/x"], [], [])
  /\ In (dup_message 1) (issues (sitemapCheck "s" 200 "https://a.io/x
https://a.io/x")).
Proof.
  assert (E : collect "https://a.io/x
https://a.io/x" = (FText, ["https://a.io/x"; "https://a.io/x"], [], [])) by (vm_compute; reflexivity).
  split; [exact E |].
  destruct (sitemapCheck_duplicates "s" _ _ _ _ _ E eq_refl) as [_ H].
  destruct H as [_ H]; [intros Hn; inversion Hn as [| x l Hx _]; apply Hx; left; reflexivity |].
  exact H.
Defined.

End SitemapProps.

